(** * The Polars tutorial notebook, as a verified pipeline

    The notebook [EF01 - Polars Tutorial.ipynb] is a sequence of cells, each
    a method chain over one dataframe [df] read from a spreadsheet.  The
    development has three layers:

    - [Polars]: the fragment of the dataframe library the notebook calls
      (values, series, frames, expressions and the frame methods), written as
      executable functions following the library's documented behaviour;
    - [Notebook]: the cells themselves, transliterated method by method, run
      in a small kernel monad that keeps the variables, the object store, the
      files written and the trace of what the notebook did;
    - the theorems about the cells. *)

From stdpp Require Import base tactics option list strings gmap sorting.
From Stdlib Require Import QArith.Qreduction.

Local Open Scope string_scope.
Local Open Scope list_scope.
Local Open Scope Z_scope.

(** ** Floating point numbers

    The generation column holds 64-bit floats.  Nothing proved below depends
    on how floating-point arithmetic rounds, so the operations are kept
    abstract: any interpretation with a decidable equality and a total
    preorder for sorting will do. *)

Class FloatOps := {
  float : Type;
  float_eq_dec :: EqDecision float;
  fzero : float;
  fadd : float → float → float;
  fmul : float → float → float;
  fdiv : float → float → float;
  float_of_Z : Z → float;
  fleb : float → float → bool;
  fleb_total : ∀ x y, fleb x y = true ∨ fleb y x = true;
  fleb_trans : ∀ x y z, fleb x y = true → fleb y z = true → fleb x z = true;
}.

(** ** Order on strings: byte-wise lexicographic, as the library sorts them *)

Definition string_leb (s1 s2 : string) : bool :=
  match String.compare s1 s2 with Gt => false | _ => true end.

Module Polars.

(** *** Errors and results

    The exceptions a cell can end in: the dataframe library's own, Python's
    [NameError] for a variable that is not bound, the plotting library's
    complaint about a column it cannot find, and a write the operating
    system refuses.  [Unsupported] marks the two places where this fragment
    stops short of the library (an aggregation expression that does not
    reduce its group to one value, a pivot header that is not a string);
    no cell of the notebook gets there on a spreadsheet of the expected
    columns. *)

Inductive Error :=
| FileNotFoundError (path : string)
| ColumnNotFoundError (name : string)
| DuplicateError (name : string)
| InvalidOperationError
| ShapeError
| ComputeError
| NameError (var : string)
| ChartError (column : string)
| IOError (path : string)
| Unsupported.

Inductive Result (A : Type) :=
| Ok (a : A)
| Err (e : Error).
Arguments Ok {A} a.
Arguments Err {A} e.

Definition bind {A B} (m : Result A) (f : A → Result B) : Result B :=
  match m with
  | Ok a => f a
  | Err e => Err e
  end.

Definition rmap {A B} (f : A → B) (m : Result A) : Result B :=
  bind m (λ a, Ok (f a)).

(** A method chain [x.f(..).g(..)] is written [Ok x .> f .. .> g ..]. *)
Notation "m '.>' f" := (bind m f) (at level 50, left associativity).
#[export] Instance Result_bind : MBind Result := λ A B f m, bind m f.
#[export] Instance Result_ret : MRet Result := λ A a, Ok a.
#[export] Instance Result_fmap : FMap Result := λ A B f m, rmap f m.

Fixpoint traverse {A B} (f : A → Result B) (l : list A) : Result (list B) :=
  match l with
  | [] => Ok []
  | x :: l => y ← f x; ys ← traverse f l; Ok (y :: ys)
  end.

(** *** Data types and values *)

Inductive TimeUnit := Millis | Micros | Nanos.

Inductive DType :=
| Boolean | Int8 | Int64 | UInt32 | Float64 | Utf8 | Date
| Datetime (tu : TimeUnit).

Definition ticks_per_second (tu : TimeUnit) : Z :=
  match tu with Millis => 1000 | Micros => 1000000 | Nanos => 1000000000 end.

(** *** Unspecified row order

    [group_by], [unique] and [sort] are called without [maintain_order]: the
    library then promises the rows, not their order (the order of groups, of
    the surviving duplicates, of rows with equal sort keys).  A [Shuffle] is
    one such choice of order; every call site gets its own. *)

Record Shuffle := mkShuffle {
  shuffle : ∀ A : Type, list A → list A;
  shuffle_perm : ∀ (A : Type) (l : list A), shuffle A l ≡ₚ l;
}.
Arguments shuffle _ {A} _.

Definition Scheduler := nat → Shuffle.

(** A stable sort by insertion: equal elements keep their order. *)
Fixpoint insert_sorted {A} (R : relation A) `{!RelDecision R} (x : A)
    (l : list A) : list A :=
  match l with
  | [] => [x]
  | y :: l' => if decide (R x y) then x :: l else y :: insert_sorted R x l'
  end.

Definition stable_sort {A} (R : relation A) `{!RelDecision R} (l : list A)
    : list A :=
  foldr (insert_sorted R) [] l.

Section WithFloat.
Context {FO : FloatOps}.

Inductive value :=
| VNull
| VBool (b : bool)
| VInt (z : Z)
| VFloat (x : float)
| VStr (s : string)
| VDate (days : Z)
| VDatetime (ticks : Z).

#[export] Instance value_eq_dec : EqDecision value.
Proof. solve_decision. Defined.

Definition is_null (v : value) : bool :=
  match v with VNull => true | _ => false end.

(** Ascending order inside one data type.  Values of different types never
    meet in one column; they are ranked by constructor to keep the order
    total. *)
Definition rank (v : value) : nat :=
  match v with
  | VNull => 0 | VBool _ => 1 | VInt _ => 2 | VFloat _ => 3
  | VStr _ => 4 | VDate _ => 5 | VDatetime _ => 6
  end%nat.

Definition value_leb (a b : value) : bool :=
  match a, b with
  | VBool x, VBool y => implb x y
  | VInt x, VInt y => x <=? y
  | VFloat x, VFloat y => fleb x y
  | VStr x, VStr y => string_leb x y
  | VDate x, VDate y => x <=? y
  | VDatetime x, VDatetime y => x <=? y
  | _, _ => (rank a <=? rank b)%nat
  end.

(** *** Series and frames *)

Record Series := mkSeries { name : string; dtype : DType; values : list value }.

Definition DataFrame := list Series.

Definition height (df : DataFrame) : nat :=
  match df with [] => 0%nat | s :: _ => length (values s) end.

Definition columns (df : DataFrame) : list string := name <$> df.
Definition schema (df : DataFrame) : list (string * DType) :=
  (λ s, (name s, dtype s)) <$> df.

Fixpoint get_column (n : string) (df : DataFrame) : Result Series :=
  match df with
  | [] => Err (ColumnNotFoundError n)
  | s :: df => if String.eqb (name s) n then Ok s else get_column n df
  end.

Definition with_name (n : string) (s : Series) : Series :=
  mkSeries n (dtype s) (values s).
Definition with_values (vs : list value) (s : Series) : Series :=
  mkSeries (name s) (dtype s) vs.

(** The first duplicated column name of a frame, if any: frames never hold
    two columns of one name. *)
Fixpoint first_duplicate (ns : list string) : option string :=
  match ns with
  | [] => None
  | n :: ns => if decide (n ∈ ns) then Some n else first_duplicate ns
  end.

Definition check_unique (df : DataFrame) : Result DataFrame :=
  match first_duplicate (columns df) with
  | Some n => Err (DuplicateError n)
  | None => Ok df
  end.

(** Rows of a list of columns ([h] is the height, which matters when there
    is no column at all), and back. *)
Fixpoint rows_of (h : nat) (cols : list (list value)) : list (list value) :=
  match cols with
  | [] => replicate h []
  | c :: cols => zip_with cons c (rows_of h cols)
  end.

Fixpoint cols_of (n : nat) (rows : list (list value)) : list (list value) :=
  match n with
  | O => []
  | S n => ((λ r, hd VNull r) <$> rows) :: cols_of n ((λ r, tl r) <$> rows)
  end.

Definition to_rows (df : DataFrame) : list (list value) :=
  rows_of (height df) (values <$> df).

Definition of_rows (like : DataFrame) (rows : list (list value)) : DataFrame :=
  zip_with with_values (cols_of (length like) rows) like.

Definition with_rows (g : list (list value) → list (list value))
    (df : DataFrame) : DataFrame :=
  of_rows df (g (to_rows df)).

(** Keep the elements whose mask bit is set. *)
Fixpoint filter_mask {A} (mask : list bool) (l : list A) : list A :=
  match mask, l with
  | b :: mask, x :: l => if b then x :: filter_mask mask l else filter_mask mask l
  | _, _ => []
  end.

Definition filter_rows (mask : list bool) (df : DataFrame) : DataFrame :=
  (λ s, with_values (filter_mask mask (values s)) s) <$> df.

(** Distinct elements, in order of first appearance. *)
Fixpoint distinct {A} `{EqDecision A} (l : list A) : list A :=
  match l with
  | [] => []
  | x :: l => x :: filter (λ y, y ≠ x) (distinct l)
  end.

Definition mask_of {A} `{EqDecision A} (k : A) (keys : list A) : list bool :=
  (λ k', bool_decide (k' = k)) <$> keys.

(** *** Expressions *)

Inductive AggFn := Sum | Mean | Count | Max.

Inductive Expr :=
| Col (n : string)
| Lit (v : value)
| Alias (e : Expr) (n : string)
| Mul (e1 e2 : Expr)
| EqE (e1 e2 : Expr)
| GtE (e1 e2 : Expr)
| Agg (f : AggFn) (e : Expr)
| Over (e : Expr) (partition_by : list string)
| DtHour (e : Expr)
| DtDate (e : Expr)
| RollingMean (e : Expr) (window_size : nat).

(** An expression evaluates to a column, or to a single value that is
    broadcast where a column is expected. *)
Inductive Evaluated :=
| Scalar (n : string) (t : DType) (v : value)
| Column (s : Series).

Definition ev_name (r : Evaluated) : string :=
  match r with Scalar n _ _ => n | Column s => name s end.
Definition ev_dtype (r : Evaluated) : DType :=
  match r with Scalar _ t _ => t | Column s => dtype s end.
Definition ev_values (r : Evaluated) : list value :=
  match r with Scalar _ _ v => [v] | Column s => values s end.
Definition ev_rename (n : string) (r : Evaluated) : Evaluated :=
  match r with Scalar _ t v => Scalar n t v | Column s => Column (with_name n s) end.
Definition ev_map (f : value → value) (t : DType) (r : Evaluated) : Evaluated :=
  match r with
  | Scalar n _ v => Scalar n t (f v)
  | Column s => Column (mkSeries (name s) t (f <$> values s))
  end.

Definition dtype_of (v : value) : DType :=
  match v with
  | VNull => Boolean | VBool _ => Boolean | VInt _ => Int64 | VFloat _ => Float64
  | VStr _ => Utf8 | VDate _ => Date | VDatetime _ => Datetime Micros
  end.

#[export] Instance TimeUnit_eq_dec : EqDecision TimeUnit.
Proof. solve_decision. Defined.
#[export] Instance DType_eq_dec : EqDecision DType.
Proof. solve_decision. Defined.

Definition is_int (t : DType) : bool :=
  match t with Int8 | Int64 | UInt32 => true | _ => false end.
Definition is_float (t : DType) : bool :=
  match t with Float64 => true | _ => false end.
Definition is_numeric (t : DType) : bool := is_int t || is_float t.

Definition to_float (v : value) : option float :=
  match v with
  | VFloat x => Some x
  | VInt z => Some (float_of_Z z)
  | _ => None
  end.
Definition to_int (v : value) : option Z :=
  match v with VInt z => Some z | _ => None end.

(** Arithmetic and comparison, cell by cell; a null operand gives null. *)
Definition mul_value (a b : value) : value :=
  match a, b with
  | VInt x, VInt y => VInt (x * y)
  | _, _ =>
    match to_float a, to_float b with
    | Some x, Some y => VFloat (fmul x y)
    | _, _ => VNull
    end
  end.

Definition eq_value (a b : value) : value :=
  match a, b with
  | VNull, _ | _, VNull => VNull
  | VInt x, VInt y => VBool (x =? y)
  | _, _ =>
    match to_float a, to_float b with
    | Some x, Some y => VBool (bool_decide (x = y))
    | _, _ => VBool (bool_decide (a = b))
    end
  end.

Definition gt_value (a b : value) : value :=
  match a, b with
  | VNull, _ | _, VNull => VNull
  | VInt x, VInt y => VBool (y <? x)
  | _, _ =>
    match to_float a, to_float b with
    | Some x, Some y => VBool (negb (fleb x y))
    | _, _ => VBool (negb (value_leb a b))
    end
  end.

Definition arith_dtype (t1 t2 : DType) : Result DType :=
  if is_numeric t1 && is_numeric t2
  then Ok (if is_float t1 || is_float t2 then Float64 else Int64)
  else Err InvalidOperationError.

Definition compare_dtype (t1 t2 : DType) : Result DType :=
  if (is_numeric t1 && is_numeric t2) || bool_decide (t1 = t2)
  then Ok Boolean
  else Err InvalidOperationError.

(** A binary operation: the output takes the name of the left operand. *)
Definition binary (f : value → value → value) (t : DType) (a b : Evaluated)
    : Result Evaluated :=
  match a, b with
  | Scalar n _ x, Scalar _ _ y => Ok (Scalar n t (f x y))
  | Column s, Scalar _ _ y =>
      Ok (Column (mkSeries (name s) t ((λ x, f x y) <$> values s)))
  | Scalar n _ x, Column s =>
      Ok (Column (mkSeries n t (f x <$> values s)))
  | Column s1, Column s2 =>
      if decide (length (values s1) = length (values s2))
      then Ok (Column (mkSeries (name s1) t (zip_with f (values s1) (values s2))))
      else Err ShapeError
  end.

(** Aggregations skip nulls. *)
Definition non_null (vs : list value) : list value :=
  filter (λ v, v ≠ VNull) vs.
Definition floats_of (vs : list value) : list float := omap to_float vs.
Definition ints_of (vs : list value) : list Z := omap to_int vs.

Definition fsum (xs : list float) : float := foldl fadd fzero xs.

Definition mean_of (xs : list float) : value :=
  match xs with
  | [] => VNull
  | _ => VFloat (fdiv (fsum xs) (float_of_Z (Z.of_nat (length xs))))
  end.

Definition max_of (vs : list value) : value :=
  foldl (λ acc v,
           if is_null v then acc
           else if is_null acc then v
           else if value_leb acc v then v else acc) VNull vs.

Definition agg_values (f : AggFn) (t : DType) (vs : list value)
    : Result (DType * value) :=
  match f with
  | Sum =>
      if is_float t then Ok (Float64, VFloat (fsum (floats_of vs)))
      else if is_int t then Ok (Int64, VInt (foldl Z.add 0 (ints_of vs)))
      else Err InvalidOperationError
  | Mean =>
      if is_numeric t then Ok (Float64, mean_of (floats_of vs))
      else Err InvalidOperationError
  | Count => Ok (UInt32, VInt (Z.of_nat (length (non_null vs))))
  | Max => Ok (t, max_of vs)
  end.

Definition aggregate (f : AggFn) (r : Evaluated) : Result Evaluated :=
  '(t, v) ← agg_values f (ev_dtype r) (ev_values r);
  Ok (Scalar (ev_name r) t v).

(** Temporal accessors: [dt.hour()] and [dt.date()]. *)
Definition hour_of (tu : TimeUnit) (v : value) : value :=
  match v with
  | VDatetime t => VInt ((t `div` (3600 * ticks_per_second tu)) `mod` 24)
  | _ => VNull
  end.

Definition date_of (tu : TimeUnit) (v : value) : value :=
  match v with
  | VDatetime t => VDate (t `div` (86400 * ticks_per_second tu))
  | _ => VNull
  end.

(** [rolling_mean(n)]: the mean of the window of the [n] rows ending at the
    current one; null until the window holds [n] non-null values
    ([min_samples] defaults to the window size). *)
Definition window (n i : nat) (vs : list value) : list value :=
  drop (S i - n) (take (S i) vs).

Definition rolling_mean_values (n : nat) (vs : list value) : list value :=
  imap (λ i _, let w := floats_of (window n i vs) in
               if decide (n ≤ length w)%nat then mean_of w else VNull) vs.

(** For a window expression [e.over(keys)]: the value at a row of the
    partition's result, a scalar for an aggregation and otherwise a column
    as long as the partition, read at the row's position in it. *)
Definition pick (r : Evaluated) (pos : nat) : value :=
  match r with
  | Scalar _ _ v => v
  | Column s => nth pos (values s) VNull
  end.

Definition position_in_partition (krows : list (list value)) (i : nat)
    (k : list value) : nat :=
  length (filter (λ k', k' = k) (take i krows)).

Definition indexed {A} (l : list A) : list (nat * A) :=
  zip (seq 0 (length l)) l.

Fixpoint eval (df : DataFrame) (e : Expr) : Result Evaluated :=
  match e with
  | Col n => s ← get_column n df; Ok (Column s)
  | Lit v => Ok (Scalar "literal" (dtype_of v) v)
  | Alias e n => r ← eval df e; Ok (ev_rename n r)
  | Mul e1 e2 =>
      a ← eval df e1; b ← eval df e2;
      t ← arith_dtype (ev_dtype a) (ev_dtype b);
      binary mul_value t a b
  | EqE e1 e2 =>
      a ← eval df e1; b ← eval df e2;
      t ← compare_dtype (ev_dtype a) (ev_dtype b);
      binary eq_value t a b
  | GtE e1 e2 =>
      a ← eval df e1; b ← eval df e2;
      t ← compare_dtype (ev_dtype a) (ev_dtype b);
      binary gt_value t a b
  | Agg f e => r ← eval df e; aggregate f r
  | Over e keys =>
      whole ← eval df e;
      kcols ← traverse (λ n, get_column n df) keys;
      let krows := rows_of (height df) (values <$> kcols) in
      vs ← traverse
             (λ '(i, k),
                r ← eval (filter_rows (mask_of k krows) df) e;
                Ok (pick r (position_in_partition krows i k)))
             (indexed krows);
      Ok (Column (mkSeries (ev_name whole) (ev_dtype whole) vs))
  | DtHour e =>
      r ← eval df e;
      match ev_dtype r with
      | Datetime tu => Ok (ev_map (hour_of tu) Int8 r)
      | _ => Err InvalidOperationError
      end
  | DtDate e =>
      r ← eval df e;
      match ev_dtype r with
      | Datetime tu => Ok (ev_map (date_of tu) Date r)
      | Date => Ok r
      | _ => Err InvalidOperationError
      end
  | RollingMean e n =>
      r ← eval df e;
      if is_numeric (ev_dtype r)
      then Ok (Column (mkSeries (ev_name r) Float64
                         (rolling_mean_values n (ev_values r))))
      else Err InvalidOperationError
  end.

End WithFloat.

(** *** Frame methods *)

Module Frame.
Section WithFloat.
Context {FO : FloatOps}.

(** A result as a column of height [h]: scalars are broadcast, columns must
    already have that height. *)
Definition to_series (h : nat) (r : Evaluated) : Result Series :=
  match r with
  | Scalar n t v => Ok (mkSeries n t (replicate h v))
  | Column s => if decide (length (values s) = h) then Ok s else Err ShapeError
  end.

Definition is_scalar (r : Evaluated) : bool :=
  match r with Scalar _ _ _ => true | Column _ => false end.

(** The height of a selection: that of its first column, or one row when
    every expression is a scalar. *)
Fixpoint selection_height (rs : list Evaluated) : nat :=
  match rs with
  | [] => 0%nat
  | Column s :: _ => length (values s)
  | Scalar _ _ _ :: rs => match rs with [] => 1%nat | _ => selection_height rs end
  end.

(** [df.select(exprs)] *)
Definition select (exprs : list Expr) (df : DataFrame) : Result DataFrame :=
  rs ← traverse (eval df) exprs;
  cols ← traverse (to_series (selection_height rs)) rs;
  check_unique cols.

(** Replace the column of the same name, or append. *)
Fixpoint set_column (s : Series) (df : DataFrame) : DataFrame :=
  match df with
  | [] => [s]
  | c :: df => if String.eqb (name c) (name s) then s :: df else c :: set_column s df
  end.

(** [df.with_columns(exprs)]: every expression is evaluated on [df] itself. *)
Definition with_columns (exprs : list Expr) (df : DataFrame) : Result DataFrame :=
  rs ← traverse (eval df) exprs;
  cols ← traverse (to_series (height df)) rs;
  _ ← check_unique cols;
  Ok (foldl (λ acc s, set_column s acc) df cols).

(** [df.rename(mapping)]: every old name must exist. *)
Definition renamed (mapping : list (string * string)) (n : string) : string :=
  match list_find (λ p, p.1 = n) mapping with
  | Some (_, p) => p.2
  | None => n
  end.

Definition rename (mapping : list (string * string)) (df : DataFrame)
    : Result DataFrame :=
  _ ← traverse (λ p, get_column p.1 df) mapping;
  check_unique ((λ s, with_name (renamed mapping (name s)) s) <$> df).

(** [df.filter(pred)]: rows where the predicate is true; a null drops the
    row. *)
Definition is_true (v : value) : bool :=
  match v with VBool true => true | _ => false end.

Definition filter (pred : Expr) (df : DataFrame) : Result DataFrame :=
  r ← eval df pred;
  if decide (ev_dtype r = Boolean)
  then s ← to_series (height df) r;
       Ok (filter_rows (is_true <$> values s) df)
  else Err InvalidOperationError.

(** [df.head(n)] *)
Definition head (n : nat) (df : DataFrame) : DataFrame :=
  (λ s, with_values (take n (values s)) s) <$> df.

(** Sort keys compare lexicographically; nulls come first, ascending or
    descending. *)
Definition cell_leb (descending : bool) (a b : value) : bool :=
  match a, b with
  | VNull, _ => true
  | _, VNull => false
  | _, _ => if descending then value_leb b a else value_leb a b
  end.

Fixpoint keys_leb (descending : bool) (k1 k2 : list value) : bool :=
  match k1, k2 with
  | [], _ => true
  | _ :: _, [] => false
  | a :: k1, b :: k2 =>
      if cell_leb descending a b
      then (if cell_leb descending b a then keys_leb descending k1 k2 else true)
      else false
  end.

Definition keyed_le (descending : bool) {A} (p q : list value * A) : Prop :=
  keys_leb descending p.1 q.1 = true.

#[export] Instance keyed_le_dec descending {A} : RelDecision (@keyed_le descending A).
Proof. intros p q. unfold keyed_le. apply _. Defined.

(** [df.sort(by, descending=..)]: rows with equal keys come out in no
    promised order. *)
Definition sort (by_ : list string) (descending : bool) (sh : Shuffle)
    (df : DataFrame) : Result DataFrame :=
  kcols ← traverse (λ n, get_column n df) by_;
  let krows := rows_of (height df) (values <$> kcols) in
  Ok (of_rows df
        (snd <$> stable_sort (keyed_le descending)
                   (shuffle sh (zip krows (to_rows df))))).

(** [df.unique()]: the distinct rows, in no promised order. *)
Definition unique (sh : Shuffle) (df : DataFrame) : Result DataFrame :=
  Ok (with_rows (λ rows, shuffle sh (distinct rows)) df).

(** [df.group_by(keys).agg(exprs)]: one row per distinct key, in no
    promised order; each expression is evaluated on the rows of the group
    and must aggregate them to one value. *)
Definition group_value (df : DataFrame) (krows : list (list value)) (e : Expr)
    (k : list value) : Result value :=
  r ← eval (filter_rows (mask_of k krows) df) e;
  match r with
  | Scalar _ _ v => Ok v
  | Column _ => Err Unsupported
  end.

Definition agg_column (df : DataFrame) (krows groups : list (list value))
    (e : Expr) : Result Series :=
  whole ← eval df e;
  vs ← traverse (group_value df krows e) groups;
  Ok (mkSeries (ev_name whole) (ev_dtype whole) vs).

Definition group_by_agg (keys : list string) (exprs : list Expr) (sh : Shuffle)
    (df : DataFrame) : Result DataFrame :=
  kcols ← traverse (λ n, get_column n df) keys;
  let krows := rows_of (height df) (values <$> kcols) in
  let groups := shuffle sh (distinct krows) in
  aggs ← traverse (agg_column df krows groups) exprs;
  check_unique (of_rows kcols groups ++ aggs).

(** [df.pivot(values=.., index=.., on=.., aggregate_function=..)]: one row
    per distinct index value and one column per distinct [on] value, both in
    order of first appearance; a cell aggregates the values of the rows with
    that index and that [on] value, and is null when there is none. *)
Definition header (v : value) : Result string :=
  match v with
  | VStr s => Ok s
  | VNull => Ok "null"
  | _ => Err Unsupported
  end.

Definition both (m1 m2 : list bool) : list bool := zip_with andb m1 m2.

Definition pivot_entry (f : AggFn) (vals ixs ons : Series) (o i : value)
    : Result value :=
  let rows := filter_mask (both (mask_of i (values ixs)) (mask_of o (values ons)))
                (values vals) in
  match rows with
  | [] => Ok VNull
  | _ => '(_, v) ← agg_values f (dtype vals) rows; Ok v
  end.

Definition pivot_column (f : AggFn) (vals ixs ons : Series) (index : list value)
    (o : value) : Result Series :=
  n ← header o;
  '(t, _) ← agg_values f (dtype vals) [];
  vs ← traverse (pivot_entry f vals ixs ons o) index;
  Ok (mkSeries n t vs).

Definition pivot (values_ index on : string) (aggregate_function : AggFn)
    (df : DataFrame) : Result DataFrame :=
  vals ← get_column values_ df;
  ixs ← get_column index df;
  ons ← get_column on df;
  let idx := distinct (values ixs) in
  cols ← traverse (pivot_column aggregate_function vals ixs ons idx)
           (distinct (values ons));
  check_unique (with_values idx ixs :: cols).

End WithFloat.
End Frame.
End Polars.

(** ** The notebook's method chains

    One definition per transformation cell, named after the variable the
    cell assigns where there is one.  [w] supplies the row order of each
    call that leaves it open. *)

Module Notebook.
Import Polars.

Section WithFloat.
Context {FO : FloatOps}.

(** [df.select(["Date", "Actual Generation (GWh)", "Primary Source"])] *)
Definition select_cell (df : DataFrame) : Result DataFrame :=
  Ok df .> Frame.select [Col "Date"; Col "Actual Generation (GWh)"; Col "Primary Source"].

(** [df.rename({...})] *)
Definition rename_cell (df : DataFrame) : Result DataFrame :=
  Ok df .> Frame.rename [("Actual Generation (GWh)", "Generation");
                         ("Primary Source", "Source")].

(** [df.with_columns((pl.col("Actual Generation (GWh)") * 1000).alias("Generation_MWh"))] *)
Definition derive_cell (df : DataFrame) : Result DataFrame :=
  Ok df .> Frame.with_columns
             [Alias (Mul (Col "Actual Generation (GWh)") (Lit (VInt 1000)))
                    "Generation_MWh"].

(** [df.filter(pl.col("Primary Source") == "Thermal")] *)
Definition filter_source_cell (df : DataFrame) : Result DataFrame :=
  Ok df .> Frame.filter (EqE (Col "Primary Source") (Lit (VStr "Thermal"))).

(** [df.filter(pl.col("Actual Generation (GWh)") > 10)] *)
Definition filter_generation_cell (df : DataFrame) : Result DataFrame :=
  Ok df .> Frame.filter (GtE (Col "Actual Generation (GWh)") (Lit (VInt 10))).

(** [df.sort("Actual Generation (GWh)", descending=True)] *)
Definition sort_cell (w : Scheduler) (df : DataFrame) : Result DataFrame :=
  Ok df .> Frame.sort ["Actual Generation (GWh)"] true (w 0%nat).

(** [df.group_by("Primary Source").agg(sum, mean, count)] *)
Definition group_stats_cell (w : Scheduler) (df : DataFrame) : Result DataFrame :=
  Ok df .> Frame.group_by_agg ["Primary Source"]
             [Alias (Agg Sum (Col "Actual Generation (GWh)")) "Total_Generation";
              Alias (Agg Mean (Col "Actual Generation (GWh)")) "Avg_Generation";
              Alias (Agg Count (Col "Actual Generation (GWh)")) "Count"]
             (w 1%nat).

(** [df.group_by("Primary Source").agg(max)] *)
Definition group_max_cell (w : Scheduler) (df : DataFrame) : Result DataFrame :=
  Ok df .> Frame.group_by_agg ["Primary Source"]
             [Alias (Agg Max (Col "Actual Generation (GWh)")) "Max Gen"]
             (w 2%nat).

(** [df.with_columns(pl.col("Date").dt.hour().alias("Hour"))] *)
Definition hour_cell (df : DataFrame) : Result DataFrame :=
  Ok df .> Frame.with_columns [Alias (DtHour (Col "Date")) "Hour"].

Definition generation_df (w : Scheduler) (df : DataFrame) : Result DataFrame :=
  Ok df
  .> Frame.with_columns [Alias (DtHour (Col "Date")) "Hour"]
  .> Frame.group_by_agg ["Hour"]
       [Alias (Agg Mean (Col "Actual Generation (GWh)")) "Hourly Generation"]
       (w 3%nat)
  .> Frame.sort ["Hour"] false (w 4%nat).

Definition generation_by_hour_source_df (w : Scheduler) (df : DataFrame)
    : Result DataFrame :=
  Ok df
  .> Frame.with_columns [Alias (DtHour (Col "Date")) "Hour"]
  .> Frame.with_columns
       [Alias (Over (Agg Mean (Col "Actual Generation (GWh)"))
                    ["Hour"; "Primary Source"])
              "Hourly Generation"]
  .> Frame.select [Col "Hour"; Col "Primary Source"; Col "Hourly Generation"]
  .> Frame.unique (w 5%nat)
  .> Frame.sort ["Hour"] false (w 6%nat).

(** [df.pivot(values=.., index="Date", on="Primary Source", aggregate_function="mean")] *)
Definition pivot_cell (df : DataFrame) : Result DataFrame :=
  Ok df .> Frame.pivot "Actual Generation (GWh)" "Date" "Primary Source" Mean.

(** The daily-total cell, ending in [rolling_mean(24)]. *)
Definition rolling_cell (w : Scheduler) (df : DataFrame) : Result DataFrame :=
  Ok df
  .> Frame.select [Col "Date";
                   Over (Agg Sum (Col "Actual Generation (GWh)")) ["Date"]]
  .> Frame.unique (w 7%nat)
  .> Frame.sort ["Date"] false (w 8%nat)
  .> Frame.select [Col "Date";
                   RollingMean (Col "Actual Generation (GWh)") 24].

Definition output_df (w : Scheduler) (df : DataFrame) : Result DataFrame :=
  Ok df
  .> Frame.with_columns [Alias (DtDate (Col "Date")) "date"]
  .> Frame.group_by_agg ["date"; "Primary Source"]
       [Alias (Agg Sum (Col "Actual Generation (GWh)")) "generation_gwh"]
       (w 9%nat)
  .> Frame.select [Col "date"; Col "generation_gwh";
                   Alias (Col "Primary Source") "source"]
  .> Frame.sort ["date"; "source"] false (w 10%nat).

(** *** The kernel

    The notebook runs in one interpreter process.  Its state is the object
    store (every frame the library returns is a new object), the variables,
    which hold references into the store, the files written so far, and the
    trace of what the cells did.  A library call that fails raises: the
    traceback is the last thing the trace shows and the run stops there. *)

Inductive Format := Csv | Xlsx | Parquet.
Inductive Inspection := Head | Describe | DTypes | Columns | Schema.
Inductive Chart := Line | Area.

Inductive Event :=
| Loaded (path : string)
| Inspected (what : Inspection) (data : DataFrame)
| Transformed (result : DataFrame)
| Charted (kind : Chart) (data : DataFrame) (x y : string) (color : option string)
| Written (fmt : Format) (path : string) (data : DataFrame)
| Raised (e : Error).

(** What the run cannot control: what the reader finds at a path, whether a
    write fails, and the row orders the library leaves open. *)
Record World := mkWorld {
  excel : string → Result DataFrame;
  write_fault : Format → string → option Error;
  sched : Scheduler;
}.

Record Kernel := mkKernel {
  heap : list DataFrame;
  vars : gmap string nat;
  disk : gmap string (Format * DataFrame);
  trace : list Event;
}.

Definition fresh_kernel : Kernel := mkKernel [] ∅ ∅ [].

Definition NB (A : Type) : Type := Kernel → Result A * Kernel.

Definition ret {A} (a : A) : NB A := λ k, (Ok a, k).

Definition bindNB {A B} (m : NB A) (f : A → NB B) : NB B :=
  λ k, match m k with
       | (Ok a, k') => f a k'
       | (Err e, k') => (Err e, k')
       end.

#[export] Instance NB_bind : MBind NB := λ A B f m, bindNB m f.
#[export] Instance NB_ret : MRet NB := λ A a, ret a.

Definition log (ev : Event) : NB unit :=
  λ k, (Ok (), mkKernel (heap k) (vars k) (disk k) (trace k ++ [ev])).

Definition raise {A} (e : Error) : NB A :=
  λ k, (Err e, mkKernel (heap k) (vars k) (disk k) (trace k ++ [Raised e])).

(** A library call: its value, or its error raised as it is. *)
Definition call {A} (r : Result A) : NB A :=
  match r with
  | Ok a => ret a
  | Err e => raise e
  end.

Definition alloc (df : DataFrame) : NB nat :=
  λ k, (Ok (length (heap k)),
        mkKernel (heap k ++ [df]) (vars k) (disk k) (trace k)).

(** [x = ...] *)
Definition assign (x : string) (ref : nat) : NB unit :=
  λ k, (Ok (), mkKernel (heap k) (<[x := ref]> (vars k)) (disk k) (trace k)).

(** Reading the variable [x]. *)
Definition var (x : string) : NB DataFrame :=
  λ k, match vars k !! x with
       | Some ref =>
           match heap k !! ref with
           | Some df => ret df k
           | None => raise (NameError x) k
           end
       | None => raise (NameError x) k
       end.

Definition read_excel (w : World) (path : string) : NB nat :=
  df ← call (excel w path); log (Loaded path) ;; alloc df.

Definition inspect (what : Inspection) (df : DataFrame) : NB unit :=
  log (Inspected what df).

(** A method chain: its result is a new frame. *)
Definition transform (r : Result DataFrame) : NB nat :=
  df ← call r; log (Transformed df) ;; alloc df.

Definition need_column (n : string) (df : DataFrame) : NB unit :=
  if decide (n ∈ columns df) then ret () else raise (ChartError n).

Definition plot (kind : Chart) (df : DataFrame) (x y : string)
    (color : option string) : NB unit :=
  need_column x df ;; need_column y df ;;
  from_option (λ c, need_column c df) (ret ()) color ;;
  log (Charted kind df x y color).

Definition write (w : World) (fmt : Format) (path : string) (df : DataFrame)
    : NB unit :=
  match write_fault w fmt path with
  | Some e => raise e
  | None =>
      λ k, (Ok (), mkKernel (heap k) (vars k) (<[path := (fmt, df)]> (disk k))
                     (trace k ++ [Written fmt path df]))
  end.

(** *** The cells, in notebook order *)

(** Imports and the plotting template: nothing is read or written. *)
Definition setup_cell : NB unit := ret ().

Definition data_path : string := "../data/power_generation.xlsx".

(** [df = pl.read_excel(data_path)], then [df.head()] *)
Definition load_cell (w : World) : NB unit :=
  ref ← read_excel w data_path;
  assign "df" ref ;;
  df ← var "df";
  inspect Head (Frame.head 5 df).

Definition inspect_cell (what : Inspection) : NB unit :=
  df ← var "df"; inspect what df.

(** A cell whose value is a method chain on [df]; the result is shown. *)
Definition show_cell (chain : DataFrame → Result DataFrame) : NB unit :=
  df ← var "df"; _ ← transform (chain df); ret ().

(** [x = (df. ... )] *)
Definition assign_cell (x : string) (chain : DataFrame → Result DataFrame)
    : NB unit :=
  df ← var "df"; ref ← transform (chain df); assign x ref.

(** [px.line(generation_df, x='Hour', y='Hourly Generation')] *)
Definition line_cell : NB unit :=
  g ← var "generation_df";
  plot Line g "Hour" "Hourly Generation" None.

(** [px.area(generation_by_hour_source_df, x='Hour', y='Hourly Generation', color='Primary Source')] *)
Definition area_cell : NB unit :=
  g ← var "generation_by_hour_source_df";
  plot Area g "Hour" "Hourly Generation" (Some "Primary Source").

(** [output_df.write_...(path)] *)
Definition export_to (w : World) (fmt : Format) (path : string) : NB unit :=
  o ← var "output_df"; write w fmt path o.

(** The three exports of [output_df]. *)
Definition export_cell (w : World) : NB unit :=
  export_to w Csv "output.csv" ;;
  export_to w Xlsx "output.xlsx" ;;
  export_to w Parquet "output.parquet".

Definition notebook (w : World) : list (NB unit) :=
  [ setup_cell;
    load_cell w;
    inspect_cell Describe;
    inspect_cell DTypes;
    inspect_cell Columns;
    inspect_cell Schema;
    show_cell select_cell;
    show_cell rename_cell;
    show_cell derive_cell;
    show_cell filter_source_cell;
    show_cell filter_generation_cell;
    show_cell (sort_cell (sched w));
    show_cell (group_stats_cell (sched w));
    show_cell (group_max_cell (sched w));
    show_cell hour_cell;
    assign_cell "generation_df" (generation_df (sched w));
    line_cell;
    assign_cell "generation_by_hour_source_df"
      (generation_by_hour_source_df (sched w));
    area_cell;
    show_cell pivot_cell;
    show_cell (rolling_cell (sched w));
    assign_cell "output_df" (output_df (sched w));
    export_cell w ].

(** Running cells top to bottom; the first error stops the run. *)
Fixpoint run_cells (cells : list (NB unit)) : NB unit :=
  match cells with
  | [] => ret ()
  | c :: cells => c;; run_cells cells
  end.

Definition run (w : World) : Result unit * Kernel :=
  run_cells (notebook w) fresh_kernel.

(** *** Reading a trace *)

Inductive Phase := Loading | Inspecting | Transforming | Charting | Writing.

Definition phase_of (ev : Event) : option Phase :=
  match ev with
  | Loaded _ => Some Loading
  | Inspected _ _ => Some Inspecting
  | Transformed _ => Some Transforming
  | Charted _ _ _ _ _ => Some Charting
  | Written _ _ _ => Some Writing
  | Raised _ => None
  end.


(** What touches the file system. *)
Inductive Access :=
| Reads (path : string)
| Writes (fmt : Format) (path : string).

Definition access_of (ev : Event) : option Access :=
  match ev with
  | Loaded p => Some (Reads p)
  | Written f p _ => Some (Writes f p)
  | _ => None
  end.

Definition accesses (tr : list Event) : list Access := omap access_of tr.



(** The files written, in order. *)
Definition written (tr : list Event) : list (Format * string * DataFrame) :=
  omap (λ ev, match ev with Written f p d => Some (f, p, d) | _ => None end) tr.

Definition is_raised (ev : Event) : bool :=
  match ev with Raised _ => true | _ => false end.


End WithFloat.
End Notebook.

(** ** The vocabulary of the theorems

    Frames written as rows, the expected spreadsheet as typed readings, the
    tables the cells are expected to build, and what is said about a run. *)

Import Polars Notebook.

Section Rows.
Context {FO : FloatOps} {R : Type}.

(** A column described by its name, its type and the cell it holds for a
    row [r : R]; a frame is then a list of such columns over a list of
    rows. *)
Definition ColSpec : Type := string * DType * (R → value).

Definition frame_of (cols : list ColSpec) (rs : list R) : DataFrame :=
  (λ c, mkSeries c.1.1 c.1.2 (c.2 <$> rs)) <$> cols.

(** The cells of one row. *)
Definition row_of (cols : list ColSpec) (r : R) : list value :=
  (λ c, c.2 r) <$> cols.

(** The order of two rows under the sort keys [kspec]. *)
Definition rows_le (d : bool) (kspec : list ColSpec) : relation R :=
  λ a b, Frame.keys_leb d (row_of kspec a) (row_of kspec b) = true.

End Rows.

Section Groups.
Context {FO : FloatOps} {R K : Type} `{EqDecision K}.

(** An aggregate described by its name, its type and its value on the rows
    of a group; [agg_col] is its column in a table with one row per key. *)
Definition AggSpec : Type := string * DType * (list R → value).

Definition agg_col (key : R → K) (rs : list R) (a : AggSpec) : @ColSpec FO K :=
  (a.1, λ k, a.2 (base.filter (λ r, key r = k) rs)).

End Groups.

Section Vocabulary.
Context {FO : FloatOps}.

(** The values other than floats: on them the sort order is
    antisymmetric. *)
Definition exact (v : value) : Prop :=
  match v with VFloat _ => False | _ => True end.

(** *** The spreadsheet

    One row of the spreadsheet: a timestamp in milliseconds, the generation
    and the source, any of which may be missing. *)
Record Reading := mkReading {
  date : option Z;
  generation : option float;
  source : option string;
}.

#[export] Instance Reading_eq_dec : EqDecision Reading.
Proof. solve_decision. Defined.

(** A cell that may be null. *)
Definition cell {A} (inj : A → value) (o : option A) : value :=
  from_option inj VNull o.

Definition input_cols : list (@ColSpec FO Reading) :=
  [ ("Date", Datetime Millis, λ r, cell VDatetime (date r));
    ("Actual Generation (GWh)", Float64, λ r, cell VFloat (generation r));
    ("Primary Source", Utf8, λ r, cell VStr (source r)) ].

(** The frame the reader returns for the readings [rs]. *)
Definition input (rs : list Reading) : DataFrame := frame_of input_cols rs.

(** Hour of day and calendar day of a timestamp. *)
Definition hour_of_ticks (t : Z) : Z := (t `div` 3600000) `mod` 24.
Definition day_of_ticks (t : Z) : Z := t `div` 86400000.

Definition hour (r : Reading) : option Z := hour_of_ticks <$> date r.
Definition day (r : Reading) : option Z := day_of_ticks <$> date r.

(** The mean of the values present, if any. *)
Definition mean (xs : list float) : option float :=
  match xs with
  | [] => None
  | _ => Some (fdiv (fsum xs) (float_of_Z (Z.of_nat (length xs))))
  end.

(** Nulls first, then ascending. *)
Definition option_le {A} (le : relation A) : relation (option A) :=
  λ a b, match a, b with
         | None, _ => True
         | Some _, None => False
         | Some x, Some y => le x y
         end.

(** *** The hourly aggregation

    The input with its [Hour] column, and the table of hourly means for the
    hours [hs]. *)
Definition with_hour_cols : list (@ColSpec FO Reading) :=
  input_cols ++ [("Hour", Int8, λ r, hour_of Millis (cell VDatetime (date r)))].

(** The mean generation of the rows of one hour. *)
Definition hourly_mean (rs : list Reading) (h : option Z) : option float :=
  mean (omap generation (base.filter (λ r, hour r = h) rs)).

Definition hourly_cols (rs : list Reading) : list (@ColSpec FO (option Z)) :=
  [ ("Hour", Int8, cell VInt);
    ("Hourly Generation", Float64, λ h, cell VFloat (hourly_mean rs h)) ].

Definition hourly (rs : list Reading) (hs : list (option Z)) : DataFrame :=
  frame_of (hourly_cols rs) hs.

(** *** The export *)

(** The key of the export: calendar day and source. *)
Definition day_source (r : Reading) : option Z * option string :=
  (day r, source r).

(** The generation summed over the rows of one day and source. *)
Definition daily_total (rs : list Reading) (k : option Z * option string)
    : float :=
  fsum (omap generation (base.filter (λ r, day_source r = k) rs)).

Definition string_le (s1 s2 : string) : Prop := string_leb s1 s2 = true.

(** Ascending by date and, within equal dates, ascending by source. *)
Definition by_date_then_source : relation (option Z * option string) :=
  λ a b, option_le Z.le a.1 b.1
         ∧ (a.1 = b.1 → option_le string_le a.2 b.2).

(** The exported table, given its keys in order. *)
Definition aggregated_cols (rs : list Reading)
    : list (@ColSpec FO (option Z * option string)) :=
  [ ("date", Date, λ k, cell VDate k.1);
    ("generation_gwh", Float64, λ k, VFloat (daily_total rs k));
    ("source", Utf8, λ k, cell VStr k.2) ].

Definition aggregated (rs : list Reading) (ks : list (option Z * option string))
    : DataFrame :=
  frame_of (aggregated_cols rs) ks.

(** The input with its [date] column, and the groups before the final
    selection. *)
Definition with_day_cols : list (@ColSpec FO Reading) :=
  input_cols ++ [("date", Date, λ r, date_of Millis (cell VDatetime (date r)))].

Definition grouped_cols (rs : list Reading)
    : list (@ColSpec FO (option Z * option string)) :=
  [ ("date", Date, λ k, cell VDate k.1);
    ("Primary Source", Utf8, λ k, cell VStr k.2);
    ("generation_gwh", Float64, λ k, VFloat (daily_total rs k)) ].

(** *** The rolling mean *)

(** The generation summed over the rows of one timestamp. *)
Definition date_total (rs : list Reading) (d : option Z) : float :=
  fsum (omap generation (base.filter (λ r, date r = d) rs)).

(** The rolling mean over 24 rows of a column [ts] without nulls: at row
    [i], the mean of the 24 rows [i - 23 .. i]; null while fewer than 24
    rows have been seen. *)
Definition rolling_24 (ts : list float) : list value :=
  (λ i, if decide (23 ≤ i)%nat
        then VFloat (fdiv (fsum (take 24 (drop (i - 23) ts))) (float_of_Z 24))
        else VNull)
    <$> seq 0 (length ts).

(** The totals per timestamp, and the cell's result for the timestamps
    [ds]. *)
Definition daily_cols (rs : list Reading) : list (@ColSpec FO (option Z)) :=
  [ ("Date", Datetime Millis, cell VDatetime);
    ("Actual Generation (GWh)", Float64, λ d, VFloat (date_total rs d)) ].

Definition rolled (rs : list Reading) (ds : list (option Z)) : DataFrame :=
  [ mkSeries "Date" (Datetime Millis) (cell VDatetime <$> ds);
    mkSeries "Actual Generation (GWh)" Float64
      (rolling_24 (date_total rs <$> ds)) ].

(** *** The pivot *)

(** The header of a source's column; an empty source is shown as [null]. *)
Definition source_name (s : option string) : string := default "null" s.

(** The mean generation of the rows of one timestamp and one source. *)
Definition cell_mean (rs : list Reading) (s : option string) (d : option Z)
    : option float :=
  mean (omap generation (base.filter (λ r, date r = d ∧ source r = s) rs)).

(** The pivot table for the timestamps [ds] and the sources [ss]. *)
Definition pivoted (rs : list Reading) (ds : list (option Z))
    (ss : list (option string)) : DataFrame :=
  mkSeries "Date" (Datetime Millis) (cell VDatetime <$> ds)
  :: ((λ s, mkSeries (source_name s) Float64
              ((λ d, cell VFloat (cell_mean rs s d)) <$> ds)) <$> ss).

(** *** The hourly aggregation by source *)

Definition hour_source (r : Reading) : option Z * option string :=
  (hour r, source r).

(** The mean generation of the rows of one hour and source. *)
Definition group_mean (rs : list Reading) (k : option Z * option string)
    : option float :=
  mean (omap generation (base.filter (λ r, hour_source r = k) rs)).

Definition by_hour_source_cols (rs : list Reading)
    : list (@ColSpec FO (option Z * option string)) :=
  [ ("Hour", Int8, λ k, cell VInt k.1);
    ("Primary Source", Utf8, λ k, cell VStr k.2);
    ("Hourly Generation", Float64, λ k, cell VFloat (group_mean rs k)) ].

Definition by_hour_source (rs : list Reading)
    (ks : list (option Z * option string)) : DataFrame :=
  frame_of (by_hour_source_cols rs) ks.

Definition with_mean_cols (rs : list Reading) : list (@ColSpec FO Reading) :=
  with_hour_cols
  ++ [("Hourly Generation", Float64,
       λ r, cell VFloat (group_mean rs (hour_source r)))].

(** Ascending by hour. *)
Definition by_hour : relation (option Z * option string) :=
  λ a b, option_le Z.le a.1 b.1.

(** *** Cells that leave the row order open *)

(** Two results that are frames of the columns [cols] with the same rows,
    up to their order. *)
Definition same_rows_of {R} (cols : list (@ColSpec FO R))
    (a b : Result DataFrame) : Prop :=
  ∃ rs1 rs2, a = Ok (frame_of cols rs1) ∧ b = Ok (frame_of cols rs2)
             ∧ rs1 ≡ₚ rs2.

(** The aggregates of the two cells that group by source. *)
Definition source_stats : list (@AggSpec FO Reading) :=
  [ ("Total_Generation", Float64, λ g, VFloat (fsum (omap generation g)));
    ("Avg_Generation", Float64, λ g, cell VFloat (mean (omap generation g)));
    ("Count", UInt32, λ g, VInt (Z.of_nat (length (omap generation g)))) ].

Definition source_max : list (@AggSpec FO Reading) :=
  [ ("Max Gen", Float64,
     λ g, max_of ((λ r, cell VFloat (generation r)) <$> g)) ].

Definition by_source_cols (aggs : list (@AggSpec FO Reading))
    (rs : list Reading) : list (@ColSpec FO (option string)) :=
  [("Primary Source", Utf8, cell VStr)] ++ (agg_col source rs <$> aggs).

(** *** Runs *)

(** No error raised so far. *)
Definition clean (tr : list Event) : Prop :=
  Forall (λ ev, is_raised ev = false) tr.

(** A computation that hides no error and invents none: run from a clean
    trace, it ends well with a clean trace, or ends in the error [e] with
    [Raised e] as the last event, the only one of its kind. *)
Definition faithful {A} (m : NB A) : Prop :=
  ∀ k, clean (trace k) →
    match m k with
    | (Ok _, k') => clean (trace k')
    | (Err e, k') => ∃ evs, trace k' = evs ++ [Raised e] ∧ clean evs
    end.

(** A computation that, seen through [obs], adds [xs] to the trace, or the
    first few of them when it fails. *)
Definition emits {A X} (obs : Event → option X) (xs : list X) (m : NB A)
    : Prop :=
  ∀ k,
    match m k with
    | (Ok _, k') => omap obs (trace k') = omap obs (trace k) ++ xs
    | (Err _, k') =>
        ∃ xs', xs' `prefix_of` xs
               ∧ omap obs (trace k') = omap obs (trace k) ++ xs'
    end.

(** The variable [df] refers to the first object of the store, the frame
    [df0]. *)
Definition loaded (df0 : DataFrame) (k : Kernel) : Prop :=
  vars k !! "df" = Some 0%nat ∧ heap k !! 0%nat = Some df0.

(** A computation that leaves [df] as it found it. *)
Definition keeps_df {A} (m : NB A) : Prop :=
  ∀ df0 k, loaded df0 k → loaded df0 (m k).2.


(** A cell that evaluates the method chain [chain] on [df], shown or
    assigned. *)
Definition chain_cell (chain : DataFrame → Result DataFrame) (c : NB unit)
    : Prop :=
  c = show_cell chain ∨ ∃ x, c = assign_cell x chain.

(** The kernel after the first [n] cells. *)
Definition kernel_after (w : World) (n : nat) : Kernel :=
  (run_cells (take n (notebook w)) fresh_kernel).2.

(** The first of the three writes that fails, if one does. *)
Definition first_write_fault (w : World) : option Error :=
  match write_fault w Csv "output.csv" with
  | Some e => Some e
  | None =>
      match write_fault w Xlsx "output.xlsx" with
      | Some e => Some e
      | None => write_fault w Parquet "output.parquet"
      end
  end.

(** The cells after the load. *)
Definition after_load (w : World) : list (NB unit) := drop 2 (notebook w).

(** *** The derived column *)

(** One thousand times a cell; null stays null. *)
Definition times_1000 (v : value) : value :=
  match v with
  | VFloat x => VFloat (fmul x (float_of_Z 1000))
  | VInt z => VInt (z * 1000)
  | _ => VNull
  end.

End Vocabulary.

Section MoreVocabulary.
Context {FO : FloatOps}.

(** *** The cells that show a table *)

(** The name of a column after the rename cell. *)
Definition new_name (n : string) : string :=
  if String.eqb n "Actual Generation (GWh)" then "Generation"
  else if String.eqb n "Primary Source" then "Source"
  else n.

(** A reading of the source [Thermal]. *)
Definition thermal (r : Reading) : Prop := source r = Some "Thermal".

#[export] Instance thermal_dec (r : Reading) : Decision (thermal r).
Proof. unfold thermal. apply _. Defined.

(** A reading whose generation is there and is not at most [z]. *)
Definition above (z : Z) (r : Reading) : bool :=
  match generation r with
  | Some x => negb (fleb x (float_of_Z z))
  | None => false
  end.

(** Descending by generation, readings without one first. *)
Definition by_generation_desc : relation Reading :=
  λ a b, match generation a, generation b with
         | None, _ => True
         | Some _, None => False
         | Some x, Some y => fleb y x = true
         end.



(** The hours a reading can have: none, or 0 to 23. *)
Definition all_hours : list (option Z) := None :: (Some <$> seqZ 0 24).

(** An expression that fixes the name of its column: a column by name, or
    anything under an alias. *)
Inductive named : Expr → string → Prop :=
| named_Col n : named (Col n) n
| named_Alias e n : named (Alias e n) n.

(** A result that is an error. *)
Definition fails {A} (r : Result A) : Prop :=
  match r with Err _ => True | Ok _ => False end.

End MoreVocabulary.

Section RunVocabulary.
Context {FO : FloatOps}.

(** *** More about runs *)

(** The variable [x] refers to an object of the store, the frame [t]. *)
Definition bound (x : string) (t : DataFrame) (k : Kernel) : Prop :=
  ∃ ref, vars k !! x = Some ref ∧ heap k !! ref = Some t.

(** The charts drawn, in order. *)
Definition charted (tr : list Event)
    : list (Chart * DataFrame * string * string * option string) :=
  omap (λ ev, match ev with
              | Charted c d x y color => Some (c, d, x, y, color)
              | _ => None
              end) tr.

(** A computation that leaves the files as it found them. *)
Definition keeps_disk {A} (m : NB A) : Prop := ∀ k, disk (m k).2 = disk k.

End RunVocabulary.

Section BindingVocabulary.
Context {FO : FloatOps}.




End BindingVocabulary.

(** ** A concrete interpretation of floats, and two row orders

    Exact rationals in lowest terms stand in for floats wherever a frame is
    written out in full. *)

Module Rational.
Import QArith.

#[export] Instance Q_eq_dec : EqDecision Q.
Proof. solve_decision. Defined.

#[export] Instance QFloat : FloatOps.
Proof.
  refine {| float := Q;
            fzero := 0%Q;
            fadd := λ x y, Qred (x + y);
            fmul := λ x y, Qred (x * y);
            fdiv := λ x y, Qred (x / y);
            float_of_Z := inject_Z;
            fleb := Qle_bool |}.
  - abstract (intros x y; rewrite !Qle_bool_iff;
              destruct (Qlt_le_dec x y); [left; by apply Qlt_le_weak|by right]).
  - abstract (intros x y z; rewrite !Qle_bool_iff; apply Qle_trans).
Defined.

End Rational.

(** The library keeps the order it found, or reverses it. *)
Definition keep_order : Polars.Shuffle :=
  Polars.mkShuffle (λ A l, l) (λ A l, reflexivity l).
Definition reverse_order : Polars.Shuffle :=
  Polars.mkShuffle (λ A l, reverse l) (λ A l, reverse_Permutation l).

Import Rational.

(** A small spreadsheet: two readings at midnight and one an hour later. *)
Definition sample : list Reading :=
  [ mkReading (Some 0) (Some 1%Q) (Some "Thermal");
    mkReading (Some 0) (Some 2%Q) (Some "Hydro");
    mkReading (Some 3600000) (Some 3%Q) (Some "Thermal") ].

(** A world where the spreadsheet is [sample], no write fails, and the
    library keeps every row order it finds. *)
Definition calm : World :=
  mkWorld (λ p, if String.eqb p data_path then Ok (input sample)
                else Err (FileNotFoundError p))
          (λ _ _, None)
          (λ _, keep_order).

(** A world without the spreadsheet. *)
Definition missing : World :=
  mkWorld (λ p, Err (FileNotFoundError p)) (λ _ _, None) (λ _, keep_order).

(** A world whose spreadsheet has the dates only. *)
Definition dates_only : DataFrame :=
  [ mkSeries "Date" (Datetime Millis) [VDatetime 0; VDatetime 3600000] ].

Definition truncated : World :=
  mkWorld (λ _, Ok dates_only) (λ _ _, None) (λ _, keep_order).

(** The world [calm], except that no spreadsheet can be written. *)
Definition read_only : World :=
  mkWorld (excel calm)
          (λ fmt p, match fmt with Xlsx => Some (IOError p) | _ => None end)
          (sched calm).

(** The same row orders, except that [unique()] in the per-hour-and-source
    chain hands its rows back in reverse. *)
Definition restless : Scheduler :=
  λ site, if decide (site = 5%nat) then reverse_order else keep_order.


(** The spreadsheet [sample] with a column [Generation_MWh] already there,
    and one whose dates were read as text. *)
Definition with_megawatts : DataFrame :=
  input sample
  ++ [mkSeries "Generation_MWh" Float64 [VNull; VNull; VNull]].

Definition text_dates : DataFrame :=
  [ mkSeries "Date" Utf8 [VStr "2024-01-01 00:00"];
    mkSeries "Actual Generation (GWh)" Float64 [@VFloat QFloat 1%Q];
    mkSeries "Primary Source" Utf8 [VStr "Thermal"] ].


(** * Proofs *)

Arguments floats_of {_} _ : simpl never.
Arguments mean_of {_} _ : simpl never.
Arguments rolling_mean_values {_} _ _ : simpl never.
Arguments Frame.to_series {_} _ _ : simpl never.

(** Goals about concrete column names are decided by evaluation. *)
Ltac by_eval := apply (bool_decide_unpack _); vm_compute; reflexivity.

Section Basics.
Context {FO : FloatOps}.

Lemma first_duplicate_NoDup (ns : list string) :
  NoDup ns → first_duplicate ns = None.
Proof.
  induction 1 as [|n ns Hn _ IH]; simpl; [done|].
  by rewrite decide_False.
Qed.

Lemma bind_Ok_eq {A B} (m : Result A) (f : A → Result B) (a : A) (r : Result B) :
  m = Ok a → f a = r → bind m f = r.
Proof. by intros -> <-. Qed.

Lemma to_series_Column (h : nat) (s : Series) :
  length (values s) = h → Frame.to_series h (Column s) = Ok s.
Proof. intros Hlen. unfold Frame.to_series. by rewrite decide_True. Qed.

Lemma to_series_Scalar (h : nat) (n : string) (t : DType) (v : value) :
  Frame.to_series h (Scalar n t v) = Ok (mkSeries n t (replicate h v)).
Proof. done. Qed.

Lemma length_rolling_mean_values (n : nat) (vs : list value) :
  length (rolling_mean_values n vs) = length vs.
Proof. apply length_imap. Qed.

Lemma eval_Alias (df : DataFrame) (e : Expr) (n : string) :
  eval df (Alias e n) = bind (eval df e) (λ r, Ok (ev_rename n r)).
Proof. done. Qed.

Lemma check_unique_NoDup (df : DataFrame) :
  NoDup (columns df) → check_unique df = Ok df.
Proof. intros Hnd. unfold check_unique. by rewrite first_duplicate_NoDup. Qed.

End Basics.

(** Running a method on a frame with concrete column names: evaluate, and
    discharge the height and name checks as they come up. *)
Ltac solve_length :=
  cbn; rewrite ?length_rolling_mean_values, ?length_fmap; done.

Ltac run_method :=
  repeat first
    [ progress cbn
    | rewrite to_series_Column by solve_length
    | rewrite to_series_Scalar
    | rewrite check_unique_NoDup by by_eval ].

(** Two frames over the same rows are equal when their cells are. *)
Ltac frame_ext :=
  repeat lazymatch goal with
    | |- Ok _ = Ok _ => f_equal
    | |- _ :: _ = _ :: _ => f_equal
    | |- mkSeries _ _ _ = mkSeries _ _ _ => f_equal
    | |- _ <$> ?l = _ <$> ?l => apply list_fmap_ext; intros ? ? _; cbn
    end.

(** A method chain, stage by stage: one goal per method, first to last. *)
Ltac chain :=
  lazymatch goal with
  | |- bind _ _ = _ => eapply bind_Ok_eq; [chain|]
  | |- Ok _ = Ok _ => reflexivity
  | _ => idtac
  end.

(** ** Lists: masks, distinct elements, traversals *)

Section Lists.
Context {A B : Type}.

Lemma filter_mask_fmap (f : A → B) (mask : list bool) (l : list A) :
  filter_mask mask (f <$> l) = f <$> filter_mask mask l.
Proof.
  revert l. induction mask as [|b mask IH]; intros [|x l]; simpl; try done.
  destruct b; simpl; by rewrite IH.
Qed.

Lemma filter_mask_decide (P : A → Prop) `{∀ x, Decision (P x)} (l : list A) :
  filter_mask ((λ x, bool_decide (P x)) <$> l) l = base.filter P l.
Proof.
  induction l as [|x l IH]; [done|].
  rewrite fmap_cons, filter_cons. cbn [filter_mask].
  case_bool_decide; rewrite ?decide_True, ?decide_False by done; by rewrite IH.
Qed.

Lemma filter_mask_of `{EqDecision B} (key : A → B) (k : B) (l : list A) :
  filter_mask (mask_of k (key <$> l)) l = base.filter (λ x, key x = k) l.
Proof.
  unfold mask_of. rewrite <-list_fmap_compose.
  apply (filter_mask_decide (λ x, key x = k)).
Qed.

Lemma traverse_Ok (f : A → Result B) (g : A → B) (l : list A) :
  (∀ x, x ∈ l → f x = Ok (g x)) → traverse f l = Ok (g <$> l).
Proof.
  induction l as [|x l IH]; intros Hf; simpl; [done|].
  rewrite Hf by left. cbn. rewrite IH; [done|].
  intros y Hy. apply Hf. by right.
Qed.

Lemma traverse_fmap {C} (f : A → Result B) (g : C → A) (l : list C) :
  traverse f (g <$> l) = traverse (λ x, f (g x)) l.
Proof.
  induction l as [|x l IH]; [done|]. rewrite fmap_cons. cbn. by rewrite IH.
Qed.

Lemma traverse_zip {C} (f : C * A → Result B) (g : A → B)
    (ix : list C) (l : list A) :
  length ix = length l →
  (∀ i x, x ∈ l → f (i, x) = Ok (g x)) →
  traverse f (zip ix l) = Ok (g <$> l).
Proof.
  revert ix. induction l as [|x l IH]; intros [|i ix] Hlen Hf; simpl in *;
    try done.
  rewrite Hf by left. cbn. rewrite IH; [done|lia|].
  intros j y Hy. apply Hf. by right.
Qed.

Lemma traverse_indexed (f : nat * A → Result B) (g : A → B) (l : list A) :
  (∀ i x, x ∈ l → f (i, x) = Ok (g x)) →
  traverse f (indexed l) = Ok (g <$> l).
Proof. apply traverse_zip. by rewrite length_seq. Qed.

End Lists.

Section Distinct.
Context {A : Type} `{EqDecision A}.

Lemma elem_of_distinct (l : list A) (x : A) : x ∈ distinct l ↔ x ∈ l.
Proof.
  induction l as [|y l IH]; simpl; [done|].
  rewrite !elem_of_cons, list_elem_of_filter, IH.
  destruct (decide (x = y)); tauto.
Qed.

Lemma NoDup_distinct (l : list A) : NoDup (distinct l).
Proof.
  induction l as [|y l IH]; simpl; constructor.
  - rewrite list_elem_of_filter. tauto.
  - by apply NoDup_filter.
Qed.

Lemma distinct_fmap {B} `{EqDecision B} (f : B → A) `{!Inj (=) (=) f}
    (l : list B) :
  distinct (f <$> l) = f <$> distinct l.
Proof.
  induction l as [|y l IH]; [done|].
  rewrite fmap_cons. cbn [distinct]. rewrite IH, fmap_cons. f_equal.
  generalize (distinct l). intros k.
  induction k as [|z k IHk]; [done|].
  rewrite fmap_cons, !filter_cons.
  destruct (decide (z ≠ y)) as [Hz|Hz], (decide (f z ≠ f y)) as [Hf|Hf].
  - by rewrite fmap_cons, IHk.
  - destruct Hf. intros ?%(inj f). done.
  - destruct Hz. intros ->. done.
  - done.
Qed.

End Distinct.

(** ** Frames whose columns are functions of a row

    Every frame the cells build has this shape: a list [rs] of rows of some
    type [R], and per column a name, a data type and the cell as a function
    of the row. *)

Section Views.
Context {FO : FloatOps} {R : Type}.

Lemma rows_of_frame (cols : list ColSpec) (rs : list R) :
  rows_of (length rs) (values <$> frame_of cols rs) = row_of cols <$> rs.
Proof.
  induction cols as [|c cols IH].
  - cbn. induction rs as [|r rs IHrs]; cbn; [done|]. by f_equal.
  - unfold frame_of. rewrite !fmap_cons. cbn [rows_of values].
    fold (frame_of cols rs). rewrite IH. clear IH.
    induction rs as [|r rs IHrs]; cbn; [done|]. by f_equal.
Qed.

Lemma height_frame (c : ColSpec) (cols : list ColSpec) (rs : list R) :
  height (frame_of (c :: cols) rs) = length rs.
Proof. cbn. by rewrite length_fmap. Qed.

Lemma to_rows_frame (c : ColSpec) (cols : list ColSpec) (rs : list R) :
  to_rows (frame_of (c :: cols) rs) = row_of (c :: cols) <$> rs.
Proof. unfold to_rows. by rewrite height_frame, rows_of_frame. Qed.

Lemma cols_of_rows (cols : list ColSpec) (rs : list R) :
  cols_of (length cols) (row_of cols <$> rs) = (λ c, c.2 <$> rs) <$> cols.
Proof.
  induction cols as [|c cols IH]; [done|].
  cbn [length cols_of]. rewrite fmap_cons, <-!list_fmap_compose. f_equal.
  by rewrite <-IH.
Qed.

End Views.

Section ViewsMore.
Context {FO : FloatOps} {R : Type}.
Implicit Types (cols : list (@ColSpec FO R)) (rs : list R).

Lemma of_rows_frame (like : DataFrame) cols rs :
  schema like = fst <$> cols →
  of_rows like (row_of cols <$> rs) = frame_of cols rs.
Proof.
  intros Hs. unfold of_rows.
  assert (length like = length cols) as ->.
  { apply (f_equal length) in Hs. unfold schema in Hs.
    by rewrite !length_fmap in Hs. }
  rewrite cols_of_rows. revert like Hs.
  induction cols as [|c cols IH]; intros [|s like] Hs; try done.
  unfold schema in Hs. rewrite !fmap_cons in Hs. injection Hs as Hc Hs.
  rewrite !fmap_cons. cbn [zip_with]. rewrite (IH like Hs).
  unfold frame_of. rewrite fmap_cons. f_equal.
  unfold with_values. destruct c as [[n t] f]. by simplify_eq/=.
Qed.

Lemma schema_frame cols rs : schema (frame_of cols rs) = fst <$> cols.
Proof.
  unfold schema, frame_of. rewrite <-list_fmap_compose.
  apply list_fmap_ext. by intros _ [[n t] f] _.
Qed.

Lemma columns_frame cols rs : columns (frame_of cols rs) = (λ c, c.1.1) <$> cols.
Proof. unfold columns, frame_of. by rewrite <-list_fmap_compose. Qed.

Lemma filter_rows_frame (mask : list bool) cols rs :
  filter_rows mask (frame_of cols rs) = frame_of cols (filter_mask mask rs).
Proof.
  unfold filter_rows, frame_of. rewrite <-list_fmap_compose.
  apply list_fmap_ext. intros _ c _. cbn. unfold with_values. cbn.
  by rewrite filter_mask_fmap.
Qed.

Lemma frame_of_fmap {R'} (f : R' → R) cols (rs' : list R') :
  frame_of cols (f <$> rs') =
  frame_of ((λ c : ColSpec, (c.1, λ r, c.2 (f r))) <$> cols) rs'.
Proof.
  unfold frame_of. rewrite <-list_fmap_compose.
  apply list_fmap_ext. intros _ c _. cbn. by rewrite <-list_fmap_compose.
Qed.

End ViewsMore.

(** ** The sort order is a total preorder *)

Section StringOrder.

Lemma ascii_compare_Lt_trans a b c :
  Ascii.compare a b = Lt → Ascii.compare b c = Lt → Ascii.compare a c = Lt.
Proof. unfold Ascii.compare. rewrite !N.compare_lt_iff. lia. Qed.

Lemma string_compare_Lt_trans s1 s2 s3 :
  String.compare s1 s2 = Lt → String.compare s2 s3 = Lt →
  String.compare s1 s3 = Lt.
Proof.
  revert s2 s3. induction s1 as [|a s1 IH]; intros [|b s2] [|c s3]; cbn;
    try done.
  destruct (Ascii.compare a b) eqn:Hab; try done;
    destruct (Ascii.compare b c) eqn:Hbc; try done; intros H1 H2.
  - apply Ascii.compare_eq_iff in Hab, Hbc. subst.
    assert (Ascii.compare c c = Eq) as -> by (unfold Ascii.compare; apply N.compare_refl).
    eauto.
  - apply Ascii.compare_eq_iff in Hab. subst. by rewrite Hbc.
  - apply Ascii.compare_eq_iff in Hbc. subst. by rewrite Hab.
  - by rewrite (ascii_compare_Lt_trans _ _ _ Hab Hbc).
Qed.

Lemma string_compare_refl s : String.compare s s = Eq.
Proof.
  induction s as [|a s IH]; cbn; [done|].
  assert (Ascii.compare a a = Eq) as -> by (unfold Ascii.compare; apply N.compare_refl).
  done.
Qed.

Lemma string_leb_spec s1 s2 :
  string_leb s1 s2 = true ↔ String.compare s1 s2 = Lt ∨ s1 = s2.
Proof.
  unfold string_leb. destruct (String.compare s1 s2) eqn:Hc.
  - apply String.compare_eq_iff in Hc. tauto.
  - tauto.
  - split; [done|]. intros [?| ->]; [done|]. by rewrite string_compare_refl in Hc.
Qed.

Lemma string_leb_total s1 s2 : string_leb s1 s2 = true ∨ string_leb s2 s1 = true.
Proof.
  unfold string_leb. rewrite (String.compare_antisym s1 s2).
  destruct (String.compare s2 s1); cbn; tauto.
Qed.

Lemma string_leb_trans s1 s2 s3 :
  string_leb s1 s2 = true → string_leb s2 s3 = true → string_leb s1 s3 = true.
Proof.
  rewrite !string_leb_spec. intros [H1| ->] [H2| ->]; eauto.
  left. eauto using string_compare_Lt_trans.
Qed.

Lemma string_leb_antisym s1 s2 :
  string_leb s1 s2 = true → string_leb s2 s1 = true → s1 = s2.
Proof.
  intros [H1| ->]%string_leb_spec [H2| ?]%string_leb_spec; try done.
  pose proof (string_compare_Lt_trans _ _ _ H1 H2) as H3.
  by rewrite string_compare_refl in H3.
Qed.

End StringOrder.

Section Order.
Context {FO : FloatOps}.

Lemma value_leb_total (a b : value) : value_leb a b = true ∨ value_leb b a = true.
Proof.
  destruct a, b; cbn; try tauto;
    rewrite ?Z.leb_le; try lia;
    auto using fleb_total, string_leb_total.
  destruct b, b0; cbn; tauto.
Qed.

Lemma value_leb_trans (a b c : value) :
  value_leb a b = true → value_leb b c = true → value_leb a c = true.
Proof.
  destruct a, b, c; cbn; try done;
    rewrite ?Z.leb_le; try lia;
    eauto using fleb_trans, string_leb_trans.
  destruct b, b0, b1; cbn; tauto.
Qed.

Lemma value_leb_antisym (a b : value) :
  exact a → value_leb a b = true → value_leb b a = true → a = b.
Proof.
  destruct a, b; cbn; try done; rewrite ?Z.leb_le; intros _ H1 H2.
  - destruct b, b0; cbn in *; done.
  - f_equal. lia.
  - f_equal. by apply string_leb_antisym.
  - f_equal. lia.
  - f_equal. lia.
Qed.

Lemma cell_leb_total d (a b : value) :
  Frame.cell_leb d a b = true ∨ Frame.cell_leb d b a = true.
Proof.
  destruct a, b, d; cbn -[value_leb]; try tauto; apply value_leb_total.
Qed.

Lemma cell_leb_trans d (a b c : value) :
  Frame.cell_leb d a b = true → Frame.cell_leb d b c = true →
  Frame.cell_leb d a c = true.
Proof.
  destruct d.
  - destruct a, b, c; cbn -[value_leb]; try done;
      intros H1 H2; by apply (value_leb_trans _ _ _ H2 H1).
  - destruct a, b, c; cbn -[value_leb]; try done; apply value_leb_trans.
Qed.

Lemma cell_leb_antisym (a b : value) :
  exact a →
  Frame.cell_leb false a b = true → Frame.cell_leb false b a = true → a = b.
Proof.
  intros Ha. destruct a, b; cbn -[value_leb]; try done;
    by apply value_leb_antisym.
Qed.

Lemma keys_leb_total d (k1 k2 : list value) :
  Frame.keys_leb d k1 k2 = true ∨ Frame.keys_leb d k2 k1 = true.
Proof.
  revert k2. induction k1 as [|a k1 IH]; intros [|b k2]; cbn; try tauto.
  destruct (Frame.cell_leb d a b) eqn:Hab, (Frame.cell_leb d b a) eqn:Hba;
    try tauto; [apply IH|].
  destruct (cell_leb_total d a b); congruence.
Qed.

Lemma keys_leb_trans d (k1 k2 k3 : list value) :
  Frame.keys_leb d k1 k2 = true → Frame.keys_leb d k2 k3 = true →
  Frame.keys_leb d k1 k3 = true.
Proof.
  revert k2 k3. induction k1 as [|a k1 IH]; intros [|b k2] [|c k3]; cbn;
    try done.
  destruct (Frame.cell_leb d a b) eqn:Hab; [|done].
  destruct (Frame.cell_leb d b c) eqn:Hbc; [|by destruct (Frame.cell_leb d b a)].
  rewrite (cell_leb_trans d a b c Hab Hbc).
  destruct (Frame.cell_leb d b a) eqn:Hba, (Frame.cell_leb d c b) eqn:Hcb;
    destruct (Frame.cell_leb d c a) eqn:Hca; try done; try apply IH;
    first [ by rewrite (cell_leb_trans d c a b Hca Hab) in Hcb
          | by rewrite (cell_leb_trans d b c a Hbc Hca) in Hba ].
Qed.

Lemma keys_leb_antisym (k1 k2 : list value) :
  Forall exact k1 →
  Frame.keys_leb false k1 k2 = true → Frame.keys_leb false k2 k1 = true →
  k1 = k2.
Proof.
  intros Hk. revert k2. induction Hk as [|a k1 Ha _ IH]; intros [|b k2]; cbn;
    try done.
  destruct (Frame.cell_leb false a b) eqn:Hab; [|done].
  destruct (Frame.cell_leb false b a) eqn:Hba; [|done].
  intros H1 H2. f_equal; [by apply cell_leb_antisym|by apply IH].
Qed.

#[export] Instance keyed_le_total d {A} : Total (@Frame.keyed_le FO d A).
Proof. intros p q. apply keys_leb_total. Qed.

#[export] Instance keyed_le_trans d {A} : Transitive (@Frame.keyed_le FO d A).
Proof. intros p q r. apply keys_leb_trans. Qed.

End Order.

(** ** The frame methods on such frames *)

Section StableSort.
Context {A : Type} (R : relation A) `{!RelDecision R}.

Lemma insert_sorted_Permutation (x : A) (l : list A) :
  insert_sorted R x l ≡ₚ x :: l.
Proof.
  induction l as [|y l IH]; cbn; [done|].
  destruct (decide (R x y)); [done|]. by rewrite IH, Permutation_swap.
Qed.

Lemma stable_sort_Permutation (l : list A) : stable_sort R l ≡ₚ l.
Proof.
  induction l as [|x l IH]; cbn; [done|].
  by rewrite insert_sorted_Permutation, IH.
Qed.

Lemma StronglySorted_insert_sorted `{!Total R, !Transitive R} (x : A)
    (l : list A) :
  StronglySorted R l → StronglySorted R (insert_sorted R x l).
Proof.
  induction 1 as [|y l Hl IH Hy]; cbn; [by repeat constructor|].
  destruct (decide (R x y)) as [Hxy|Hxy].
  - constructor; [by constructor|]. constructor; [done|].
    eapply Forall_impl; [done|]. intros z Hz. by etrans.
  - constructor; [done|]. rewrite insert_sorted_Permutation.
    constructor; [|done]. by destruct (total R x y).
Qed.

Lemma StronglySorted_stable_sort `{!Total R, !Transitive R} (l : list A) :
  StronglySorted R (stable_sort R l).
Proof.
  induction l as [|x l IH]; cbn; [constructor|].
  by apply StronglySorted_insert_sorted.
Qed.

End StableSort.

Section SortedMaps.
Context {A B : Type} (f : A → B) (R1 : relation A) (R2 : relation B).

Lemma StronglySorted_fmap_inv (l : list A) :
  (∀ x y, R2 (f x) (f y) → R1 x y) →
  StronglySorted R2 (f <$> l) → StronglySorted R1 l.
Proof.
  intros Hf. induction l as [|x l IH]; [constructor|].
  rewrite fmap_cons, !StronglySorted_cons, Forall_fmap.
  intros [Hx Hl]. split; [|by apply IH].
  eapply Forall_impl; [done|]. intros y. apply Hf.
Qed.

End SortedMaps.

Section Methods.
Context {FO : FloatOps} {R : Type}.
Implicit Types (c : @ColSpec FO R) (cols kspec : list (@ColSpec FO R))
  (rs : list R).

Lemma sort_frame (by_ : list string) (d : bool) (sh : Shuffle) c cols kspec rs :
  traverse (λ n, get_column n (frame_of (c :: cols) rs)) by_
    = Ok (frame_of kspec rs) →
  ∃ rs', Frame.sort by_ d sh (frame_of (c :: cols) rs)
           = Ok (frame_of (c :: cols) rs')
         ∧ rs' ≡ₚ rs
         ∧ StronglySorted (rows_le d kspec) rs'.
Proof.
  intros Hk. unfold Frame.sort. rewrite Hk. cbn [mbind Result_bind bind].
  rewrite height_frame, rows_of_frame, to_rows_frame.
  rewrite zip_with_fmap_l, zip_with_fmap_r, zip_with_diag.
  set (F := λ r : R, (row_of kspec r, row_of (c :: cols) r)).
  change (_ <$> rs) with (F <$> rs).
  set (L := stable_sort _ _).
  assert (L ≡ₚ F <$> rs) as HL.
  { unfold L. by rewrite stable_sort_Permutation, shuffle_perm. }
  destruct (Permutation_map_inv _ _ HL) as (rs' & HL' & Hrs).
  exists rs'. split_and!.
  - rewrite HL'. change (map F rs') with (F <$> rs').
    rewrite <-list_fmap_compose.
    change (snd ∘ F) with (row_of (c :: cols)).
    by rewrite of_rows_frame by apply schema_frame.
  - done.
  - apply (StronglySorted_fmap_inv F _ (Frame.keyed_le d)); [done|].
    change (F <$> rs') with (map F rs'). rewrite <-HL'.
    apply StronglySorted_stable_sort; apply _.
Qed.

Lemma unique_frame `{EqDecision R} (sh : Shuffle) c cols rs :
  Inj (=) (=) (row_of (c :: cols)) →
  ∃ rs', Frame.unique sh (frame_of (c :: cols) rs)
           = Ok (frame_of (c :: cols) rs')
         ∧ rs' ≡ₚ distinct rs.
Proof.
  intros Hinj. unfold Frame.unique, with_rows.
  rewrite to_rows_frame, distinct_fmap by done.
  destruct (Permutation_map_inv (row_of (c :: cols)) (distinct rs)
              (shuffle_perm sh _ _)) as (rs' & HL & Hrs).
  exists rs'. split; [|done].
  change (fmap ?f ?l) with (map f l) in HL |- *. rewrite HL.
  change (map ?f ?l) with (fmap f l).
  by rewrite of_rows_frame by apply schema_frame.
Qed.

Lemma frame_of_snoc cols rs (n : string) (t : DType) (g : R → value) :
  frame_of cols rs ++ [mkSeries n t (g <$> rs)] = frame_of (cols ++ [(n, t, g)]) rs.
Proof. unfold frame_of. by rewrite fmap_app. Qed.

(** A window aggregation: every row gets the aggregate of its partition. *)
Lemma eval_over_frame (e : Expr) (keys : list string) c cols kspec rs
    (n : string) (t : DType) (g : list R → value) :
  traverse (λ n, get_column n (frame_of (c :: cols) rs)) keys
    = Ok (frame_of kspec rs) →
  (∀ rs', eval (frame_of (c :: cols) rs') e = Ok (Scalar n t (g rs'))) →
  eval (frame_of (c :: cols) rs) (Over e keys)
  = Ok (Column (mkSeries n t
         ((λ r, g (base.filter (λ r', row_of kspec r' = row_of kspec r) rs))
            <$> rs))).
Proof.
  intros Hk He. cbn [eval]. rewrite He, Hk. cbn [mbind Result_bind bind].
  rewrite height_frame, rows_of_frame.
  rewrite (traverse_indexed _
             (λ k, g (base.filter (λ r', row_of kspec r' = k) rs))).
  - cbn. by rewrite <-list_fmap_compose.
  - intros i k _. rewrite filter_rows_frame, He. cbn.
    by rewrite filter_mask_of.
Qed.

End Methods.

Section GroupBy.
Context {FO : FloatOps} {R K : Type} `{EqDecision K}.

(** Grouping by typed keys: [key] is the key of a row, and [kcols] lays a
    key out in the key columns. *)
Lemma group_by_agg_frame (keys : list string) (e : Expr) (sh : Shuffle)
    (c : @ColSpec FO R) cols kspec (rs : list R)
    (key : R → K) (kcols : list (@ColSpec FO K))
    (n : string) (t : DType) (g : list R → value) :
  traverse (λ n, get_column n (frame_of (c :: cols) rs)) keys
    = Ok (frame_of kspec rs) →
  (∀ rs', eval (frame_of (c :: cols) rs') e = Ok (Scalar n t (g rs'))) →
  (∀ r, row_of kspec r = row_of kcols (key r)) →
  Inj (=) (=) (row_of kcols) →
  fst <$> kcols = fst <$> kspec →
  NoDup (((λ c, c.1.1) <$> kcols) ++ [n]) →
  ∃ ks, Frame.group_by_agg keys [e] sh (frame_of (c :: cols) rs)
          = Ok (frame_of
                  (kcols ++ [(n, t, λ k, g (base.filter (λ r, key r = k) rs))])
                  ks)
        ∧ ks ≡ₚ distinct (key <$> rs).
Proof.
  intros Hk He Hkey Hinj Hsch Hnd.
  unfold Frame.group_by_agg. rewrite Hk. cbn [mbind Result_bind bind].
  rewrite height_frame, rows_of_frame.
  rewrite (list_fmap_ext (row_of kspec) (row_of kcols ∘ key) rs)
    by (intros; apply Hkey).
  rewrite (list_fmap_compose key (row_of kcols)), distinct_fmap by done.
  destruct (Permutation_map_inv (row_of kcols) (distinct (key <$> rs))
              (shuffle_perm sh _ _)) as (ks & HG & Hks).
  exists ks. split; [|done].
  change (map ?f ?l) with (f <$> l) in HG. rewrite HG.
  cbn [traverse]. unfold Frame.agg_column. rewrite He.
  cbn [mbind Result_bind bind].
  rewrite (traverse_Ok _
    (λ k, g (base.filter (λ r, row_of kcols (key r) = k) rs))).
  2:{ intros k _. unfold Frame.group_value.
      rewrite filter_rows_frame, He. cbn.
      rewrite <-list_fmap_compose. by rewrite filter_mask_of. }
  cbn [mbind Result_bind bind ev_name ev_dtype].
  rewrite of_rows_frame by (by rewrite schema_frame).
  rewrite <-list_fmap_compose.
  rewrite (list_fmap_ext _ (λ k, g (base.filter (λ r, key r = k) rs)) ks).
  2:{ intros _ k _. cbn. f_equal. apply list_filter_iff. intros r.
      split; [apply (inj _)|by intros ->]. }
  rewrite frame_of_snoc. apply check_unique_NoDup.
  rewrite columns_frame, fmap_app. done.
Qed.

End GroupBy.

(** Several aggregates at once: one column each, next to the keys. *)

Section GroupByMany.
Context {FO : FloatOps} {R K : Type} `{EqDecision K}.

Lemma agg_column_frame (e : Expr) (c : @ColSpec FO R) cols (rs : list R)
    (key : R → K) (kcols : list (@ColSpec FO K)) (ks : list K) (a : AggSpec) :
  (∀ rs', eval (frame_of (c :: cols) rs') e
          = Ok (Scalar a.1.1 a.1.2 (a.2 rs'))) →
  Inj (=) (=) (row_of kcols) →
  Frame.agg_column (frame_of (c :: cols) rs)
    (row_of kcols <$> (key <$> rs)) (row_of kcols <$> ks) e
  = Ok (mkSeries a.1.1 a.1.2 ((agg_col key rs a).2 <$> ks)).
Proof.
  intros He Hinj. unfold Frame.agg_column. rewrite He.
  cbn [mbind Result_bind bind].
  rewrite (traverse_Ok _
    (λ k, a.2 (base.filter (λ r, row_of kcols (key r) = k) rs))).
  2:{ intros k _. unfold Frame.group_value.
      rewrite filter_rows_frame, He. cbn.
      rewrite <-list_fmap_compose. by rewrite filter_mask_of. }
  cbn [mbind Result_bind bind ev_name ev_dtype]. do 2 f_equal.
  rewrite <-list_fmap_compose. apply list_fmap_ext. intros _ k _. cbn.
  f_equal. apply list_filter_iff. intros r.
  split; [apply (inj _)|by intros ->].
Qed.

Lemma group_by_aggs_frame (keys : list string) (es : list Expr) (sh : Shuffle)
    (c : @ColSpec FO R) cols kspec (rs : list R)
    (key : R → K) (kcols : list (@ColSpec FO K)) (aggs : list AggSpec) :
  traverse (λ n, get_column n (frame_of (c :: cols) rs)) keys
    = Ok (frame_of kspec rs) →
  Forall2 (λ e a, ∀ rs', eval (frame_of (c :: cols) rs') e
                         = Ok (Scalar a.1.1 a.1.2 (a.2 rs'))) es aggs →
  (∀ r, row_of kspec r = row_of kcols (key r)) →
  Inj (=) (=) (row_of kcols) →
  fst <$> kcols = fst <$> kspec →
  NoDup (((λ c, c.1.1) <$> kcols) ++ ((λ a, a.1.1) <$> aggs)) →
  ∃ ks, Frame.group_by_agg keys es sh (frame_of (c :: cols) rs)
          = Ok (frame_of (kcols ++ (agg_col key rs <$> aggs)) ks)
        ∧ ks ≡ₚ distinct (key <$> rs).
Proof.
  intros Hk Hes Hkey Hinj Hsch Hnd.
  unfold Frame.group_by_agg. rewrite Hk. cbn [mbind Result_bind bind].
  rewrite height_frame, rows_of_frame.
  rewrite (list_fmap_ext (row_of kspec) (row_of kcols ∘ key) rs)
    by (intros; apply Hkey).
  rewrite (list_fmap_compose key (row_of kcols)), distinct_fmap by done.
  destruct (Permutation_map_inv (row_of kcols) (distinct (key <$> rs))
              (shuffle_perm sh _ _)) as (ks & HG & Hks).
  exists ks. split; [|done].
  change (map ?f ?l) with (f <$> l) in HG. rewrite HG.
  assert (traverse
            (Frame.agg_column (frame_of (c :: cols) rs)
               (row_of kcols <$> (key <$> rs)) (row_of kcols <$> ks)) es
          = Ok (frame_of (agg_col key rs <$> aggs) ks)) as ->.
  { clear Hnd. induction Hes as [|e a es aggs He _ IH]; [done|].
    cbn [traverse].
    rewrite (agg_column_frame e c cols rs key kcols ks a He Hinj).
    cbn [mbind Result_bind bind]. by rewrite IH. }
  cbn [mbind Result_bind bind].
  rewrite of_rows_frame by (by rewrite schema_frame).
  unfold frame_of. rewrite <-fmap_app. apply check_unique_NoDup.
  fold (frame_of (kcols ++ (agg_col key rs <$> aggs)) ks).
  rewrite columns_frame, fmap_app, <-list_fmap_compose. done.
Qed.

End GroupByMany.

(** ** The spreadsheet, typed

    The expected input has three columns: [Date], a timestamp; [Actual
    Generation (GWh)], a float; [Primary Source], a string.  Any cell may be
    empty. *)

Section Readings.
Context {FO : FloatOps}.

Lemma mean_of_mean (xs : list float) : mean_of xs = cell VFloat (mean xs).
Proof. by destruct xs. Qed.

Lemma floats_of_cells {A} (f : A → option float) (l : list A) :
  floats_of ((λ x, cell VFloat (f x)) <$> l) = omap f l.
Proof.
  unfold floats_of. induction l as [|x l IH]; [done|].
  rewrite fmap_cons. cbn [omap list_omap]. rewrite <-IH.
  by destruct (f x).
Qed.

Lemma hour_of_cell (o : option Z) :
  hour_of Millis (cell VDatetime o) = cell VInt (hour_of_ticks <$> o).
Proof. by destruct o. Qed.

Lemma date_of_cell (o : option Z) :
  date_of Millis (cell VDatetime o) = cell VDate (day_of_ticks <$> o).
Proof. by destruct o. Qed.

End Readings.

Section Hourly.
Context {FO : FloatOps}.

Lemma with_hour (rs : list Reading) :
  Frame.with_columns [Alias (DtHour (Col "Date")) "Hour"] (input rs)
  = Ok (frame_of with_hour_cols rs).
Proof.
  unfold Frame.with_columns. run_method. unfold with_name. cbn.
  by rewrite <-list_fmap_compose.
Qed.

Lemma hourly_groups (sh : Shuffle) (rs : list Reading) :
  ∃ hs, Frame.group_by_agg ["Hour"]
          [Alias (Agg Mean (Col "Actual Generation (GWh)")) "Hourly Generation"]
          sh (frame_of with_hour_cols rs)
        = Ok (frame_of (hourly_cols rs) hs)
      ∧ hs ≡ₚ distinct (hour <$> rs).
Proof.
  destruct (group_by_agg_frame ["Hour"]
    (Alias (Agg Mean (Col "Actual Generation (GWh)")) "Hourly Generation") sh
    ("Date", Datetime Millis, λ r, cell VDatetime (date r)) (tail with_hour_cols)
    [("Hour", Int8, λ r, hour_of Millis (cell VDatetime (date r)))] rs
    hour [("Hour", Int8, cell VInt)] "Hourly Generation" Float64
    (λ rs', cell VFloat (mean (omap generation rs'))))
    as (hs & Hrun & Hhs).
  - done.
  - intros rs'. cbn. by rewrite floats_of_cells, mean_of_mean.
  - intros r. cbn. by rewrite hour_of_cell.
  - intros [h1|] [h2|]; cbn; congruence.
  - done.
  - by_eval.
  - exists hs. split; [|done]. apply Hrun.
Qed.

Lemma rows_le_hour (a b : option Z) :
  rows_le false [("Hour", Int8, cell VInt)] a b ↔ option_le Z.le a b.
Proof.
  unfold rows_le. destruct a as [x|], b as [y|]; cbn; try done.
  destruct (Z.leb_spec x y), (Z.leb_spec y x); cbn; split; try done; lia.
Qed.

(** The hourly chain on the expected input. *)
Lemma generation_df_table (w : Scheduler) (rs : list Reading) :
  ∃ hs, generation_df w (input rs) = Ok (hourly rs hs)
      ∧ hs ≡ₚ distinct (hour <$> rs)
      ∧ StronglySorted (option_le Z.le) hs.
Proof.
  destruct (hourly_groups (w 3%nat) rs) as (ks & Hgroups & Hks).
  destruct (sort_frame ["Hour"] false (w 4%nat)
              ("Hour", Int8, cell VInt) (tail (hourly_cols rs))
              [("Hour", Int8, cell VInt)] ks eq_refl)
    as (hs & Hsort & Hhs & Hsorted).
  exists hs. split_and!.
  - unfold generation_df. chain; [apply with_hour|exact Hgroups|exact Hsort].
  - by rewrite Hhs.
  - eapply StronglySorted_fmap_inv with (f := id); [|by rewrite list_fmap_id].
    intros x y. apply rows_le_hour.
Qed.


End Hourly.

Section Exported.
Context {FO : FloatOps}.

Lemma with_day (rs : list Reading) :
  Frame.with_columns [Alias (DtDate (Col "Date")) "date"] (input rs)
  = Ok (frame_of with_day_cols rs).
Proof.
  unfold Frame.with_columns. run_method. unfold with_name. cbn.
  by rewrite <-list_fmap_compose.
Qed.

Lemma daily_groups (sh : Shuffle) (rs : list Reading) :
  ∃ ks, Frame.group_by_agg ["date"; "Primary Source"]
          [Alias (Agg Sum (Col "Actual Generation (GWh)")) "generation_gwh"]
          sh (frame_of with_day_cols rs)
        = Ok (frame_of (grouped_cols rs) ks)
      ∧ ks ≡ₚ distinct (day_source <$> rs).
Proof.
  destruct (group_by_agg_frame ["date"; "Primary Source"]
    (Alias (Agg Sum (Col "Actual Generation (GWh)")) "generation_gwh") sh
    ("Date", Datetime Millis, λ r, cell VDatetime (date r)) (tail with_day_cols)
    [("date", Date, λ r, date_of Millis (cell VDatetime (date r)));
     ("Primary Source", Utf8, λ r, cell VStr (source r))] rs
    day_source
    [("date", Date, λ k, cell VDate k.1);
     ("Primary Source", Utf8, λ k, cell VStr k.2)]
    "generation_gwh" Float64
    (λ rs', VFloat (fsum (omap generation rs'))))
    as (ks & Hrun & Hks).
  - done.
  - intros rs'. cbn. by rewrite floats_of_cells.
  - intros r. cbn. by rewrite date_of_cell.
  - intros [[d1|] [s1|]] [[d2|] [s2|]]; cbn; congruence.
  - done.
  - by_eval.
  - exists ks. split; [|done]. apply Hrun.
Qed.

Lemma select_export (rs : list Reading) (ks : list (option Z * option string)) :
  Frame.select [Col "date"; Col "generation_gwh";
                Alias (Col "Primary Source") "source"]
    (frame_of (grouped_cols rs) ks)
  = Ok (aggregated rs ks).
Proof. unfold Frame.select. by run_method. Qed.

Lemma cell_leb_date (a b : option Z) :
  Frame.cell_leb false (cell VDate a) (cell VDate b) = true ↔ option_le Z.le a b.
Proof. destruct a, b; cbn; rewrite ?Z.leb_le; done. Qed.

Lemma cell_leb_str (a b : option string) :
  Frame.cell_leb false (cell VStr a) (cell VStr b) = true
  ↔ option_le string_le a b.
Proof. destruct a, b; cbn; done. Qed.

Lemma option_le_Z_antisym (a b : option Z) :
  option_le Z.le a b → option_le Z.le b a → a = b.
Proof. destruct a, b; cbn; try done. intros. f_equal. lia. Qed.

Lemma option_le_Z_refl (a : option Z) : option_le Z.le a a.
Proof. destruct a; cbn; [lia|done]. Qed.

Lemma rows_le_date_source (a b : option Z * option string) :
  rows_le false
    [("date", Date, λ k : option Z * option string, cell VDate k.1);
     ("source", Utf8, λ k, cell VStr k.2)] a b
  ↔ by_date_then_source a b.
Proof.
  unfold rows_le, by_date_then_source. cbn [row_of fmap list_fmap snd].
  cbn [Frame.keys_leb].
  pose proof (cell_leb_date a.1 b.1) as H1.
  pose proof (cell_leb_date b.1 a.1) as H2.
  pose proof (cell_leb_str a.2 b.2) as H3.
  destruct (Frame.cell_leb false (cell VDate a.1) (cell VDate b.1));
    [|split; [done|]; intros [H _]; by apply H1 in H].
  destruct (Frame.cell_leb false (cell VDate b.1) (cell VDate a.1)).
  - destruct (Frame.cell_leb false (cell VStr a.2) (cell VStr b.2)).
    + split; [|by destruct (Frame.cell_leb _ _ _)].
      intros _. split; [by apply H1|]. intros _. by apply H3.
    + split; [done|]. intros [Ha Hab].
      assert (a.1 = b.1) as Heq
        by (apply option_le_Z_antisym; [by apply H1|by apply H2]).
      by apply H3, Hab.
  - split; [|done]. intros _. split; [by apply H1|].
    intros Heq. rewrite Heq in H2.
    pose proof (option_le_Z_refl b.1) as Hr. by apply H2 in Hr.
Qed.

(** The export chain on the expected input. *)
Lemma output_df_table (w : Scheduler) (rs : list Reading) :
  ∃ ks, output_df w (input rs) = Ok (aggregated rs ks)
      ∧ ks ≡ₚ distinct (day_source <$> rs)
      ∧ StronglySorted by_date_then_source ks.
Proof.
  unfold output_df. cbn [bind]. rewrite with_day. cbn [bind].
  destruct (daily_groups (w 9%nat) rs) as (ks & -> & Hks). cbn [bind].
  rewrite select_export. cbn [bind].
  destruct (sort_frame ["date"; "source"] false (w 10%nat)
              ("date", Date, λ k, cell VDate k.1) (tail (aggregated_cols rs))
              [("date", Date, λ k, cell VDate k.1);
               ("source", Utf8, λ k, cell VStr k.2)] ks eq_refl)
    as (ks' & Hsort & Hks' & Hsorted).
  exists ks'. split_and!.
  - apply Hsort.
  - by rewrite Hks'.
  - eapply StronglySorted_fmap_inv with (f := id); [|by rewrite list_fmap_id].
    intros x y. apply rows_le_date_source.
Qed.

(** C8: [output_df] has exactly one row for every (date, source) pair of
    the input, in ascending order of date and, for equal dates, of source. *)
Theorem output_df_one_row_per_key_sorted (w : Scheduler) (rs : list Reading) :
  ∃ ks : list (option Z * option string),
    output_df w (input rs)
    = Ok [ mkSeries "date" Date ((λ k, cell VDate k.1) <$> ks);
           mkSeries "generation_gwh" Float64
             ((λ k, VFloat (daily_total rs k)) <$> ks);
           mkSeries "source" Utf8 ((λ k, cell VStr k.2) <$> ks) ]
    ∧ NoDup ks
    ∧ (∀ k, k ∈ ks ↔ k ∈ day_source <$> rs)
    ∧ StronglySorted by_date_then_source ks.
Proof.
  destruct (output_df_table w rs) as (ks & Hrun & Hks & Hsorted).
  exists ks. split_and!; [done| |intros k|done].
  - rewrite Hks. apply NoDup_distinct.
  - by rewrite Hks, elem_of_distinct.
Qed.

End Exported.

Section Rolling.
Context {FO : FloatOps}.

Lemma floats_of_VFloat (ts : list float) : floats_of (VFloat <$> ts) = ts.
Proof.
  unfold floats_of. induction ts as [|t ts IH]; [done|].
  rewrite fmap_cons. cbn. by rewrite IH.
Qed.

Lemma mean_of_24 (xs : list float) :
  length xs = 24%nat →
  mean_of xs = VFloat (fdiv (fsum xs) (float_of_Z 24)).
Proof. intros Hlen. unfold mean_of. rewrite Hlen. by destruct xs. Qed.

Lemma rolling_mean_24 (ts : list float) :
  rolling_mean_values 24 (VFloat <$> ts) = rolling_24 ts.
Proof.
  unfold rolling_mean_values, rolling_24.
  rewrite imap_seq_0, length_fmap.
  apply list_fmap_ext. intros i x [-> Hi]%lookup_seq. cbn [Nat.add].
  unfold window. rewrite <-fmap_take, <-fmap_drop, floats_of_VFloat.
  assert (length (drop (S i - 24) (take (S i) ts)) = Nat.min (S i) 24) as Hlen.
  { rewrite length_drop, length_take. lia. }
  rewrite Hlen.
  destruct (decide (23 ≤ i)%nat) as [Hfull|Hshort].
  - rewrite decide_True by lia.
    replace (S i - 24)%nat with (i - 23)%nat by lia.
    replace (S i) with ((i - 23) + 24)%nat at 1 by lia.
    rewrite <-take_drop_commute. apply mean_of_24.
    rewrite length_take, length_drop. lia.
  - by rewrite decide_False by lia.
Qed.

Lemma eval_daily_total (rs : list Reading) :
  eval (input rs) (Over (Agg Sum (Col "Actual Generation (GWh)")) ["Date"])
  = Ok (Column (mkSeries "Actual Generation (GWh)" Float64
          ((λ r, VFloat (date_total rs (date r))) <$> rs))).
Proof.
  etrans.
  { apply (eval_over_frame (Agg Sum (Col "Actual Generation (GWh)")) ["Date"]
             ("Date", Datetime Millis, λ r, cell VDatetime (date r))
             (tail input_cols)
             [("Date", Datetime Millis, λ r, cell VDatetime (date r))] rs
             "Actual Generation (GWh)" Float64
             (λ rs', VFloat (fsum (omap generation rs'))) eq_refl).
    intros rs'. cbn. by rewrite floats_of_cells. }
  do 3 f_equal. apply list_fmap_ext. intros _ r _. cbn. unfold date_total.
  do 3 f_equal. apply list_filter_iff. intros r'.
  split; [|by intros ->]. destruct (date r'), (date r); cbn; congruence.
Qed.

Lemma select_daily (rs : list Reading) :
  Frame.select [Col "Date";
                Over (Agg Sum (Col "Actual Generation (GWh)")) ["Date"]]
    (input rs)
  = Ok (frame_of (daily_cols rs) (date <$> rs)).
Proof.
  unfold Frame.select. cbn [traverse]. rewrite eval_daily_total.
  run_method. unfold frame_of. cbn. by rewrite <-!list_fmap_compose.
Qed.

Lemma daily_cols_inj (rs : list Reading) :
  Inj (=) (=) (row_of (daily_cols rs)).
Proof. intros [d1|] [d2|]; cbn; congruence. Qed.

Lemma rows_le_date (a b : option Z) :
  rows_le false [("Date", Datetime Millis, cell VDatetime)] a b
  ↔ option_le Z.le a b.
Proof.
  unfold rows_le. destruct a as [x|], b as [y|]; cbn; try done.
  destruct (Z.leb_spec x y), (Z.leb_spec y x); cbn; split; try done; lia.
Qed.

(** The daily-total chain on the expected input. *)
Lemma rolling_cell_table (w : Scheduler) (rs : list Reading) :
  ∃ ds, rolling_cell w (input rs) = Ok (rolled rs ds)
      ∧ ds ≡ₚ distinct (date <$> rs)
      ∧ StronglySorted (option_le Z.le) ds.
Proof.
  destruct (unique_frame (w 7%nat) ("Date", Datetime Millis, cell VDatetime)
              (tail (daily_cols rs)) (date <$> rs) (daily_cols_inj rs))
    as (ks & Huniq & Hks).
  destruct (sort_frame ["Date"] false (w 8%nat)
              ("Date", Datetime Millis, cell VDatetime) (tail (daily_cols rs))
              [("Date", Datetime Millis, cell VDatetime)] ks eq_refl)
    as (ds & Hsort & Hds & Hsorted).
  exists ds. split_and!.
  - unfold rolling_cell. chain;
      [apply select_daily|exact Huniq|exact Hsort|].
    unfold Frame.select. run_method.
    by rewrite (list_fmap_compose (date_total rs) VFloat), rolling_mean_24.
  - by rewrite Hds.
  - eapply StronglySorted_fmap_inv with (f := id); [|by rewrite list_fmap_id].
    intros x y. apply rows_le_date.
Qed.


End Rolling.

Section Pivot.
Context {FO : FloatOps}.

Lemma columns_pivoted (rs : list Reading) ds ss :
  columns (pivoted rs ds ss) = "Date" :: (source_name <$> ss).
Proof.
  unfold columns, pivoted. rewrite fmap_cons, <-list_fmap_compose. done.
Qed.

Lemma filter_both {A B} (f g : A → value) (v : A → B) (a b : value)
    (l : list A) :
  filter_mask (Frame.both (mask_of a (f <$> l)) (mask_of b (g <$> l))) (v <$> l)
  = v <$> base.filter (λ x, f x = a ∧ g x = b) l.
Proof.
  unfold Frame.both, mask_of. induction l as [|x l IH]; [done|].
  rewrite !fmap_cons, filter_cons. cbn [zip_with filter_mask]. rewrite IH.
  destruct (decide (f x = a ∧ g x = b)) as [[??]|Hno].
  - by rewrite !bool_decide_eq_true_2.
  - repeat case_bool_decide; try done. tauto.
Qed.

Lemma pivot_entry_mean (vs : list value) :
  match vs with
  | [] => Ok VNull
  | _ => '(_, v) ← agg_values Mean Float64 vs; Ok v
  end = Ok (mean_of (floats_of vs)).
Proof. by destruct vs. Qed.

Lemma pivot_entry_value (rs : list Reading) (s : option string) (d : option Z) :
  Frame.pivot_entry Mean
    (mkSeries "Actual Generation (GWh)" Float64
       ((λ r, cell VFloat (generation r)) <$> rs))
    (mkSeries "Date" (Datetime Millis) ((λ r, cell VDatetime (date r)) <$> rs))
    (mkSeries "Primary Source" Utf8 ((λ r, cell VStr (source r)) <$> rs))
    (cell VStr s) (cell VDatetime d)
  = Ok (cell VFloat (cell_mean rs s d)).
Proof.
  unfold Frame.pivot_entry. cbn [values dtype]. rewrite filter_both.
  rewrite (list_filter_iff _ (λ r, date r = d ∧ source r = s)).
  2:{ intros r. destruct (date r), d, (source r), s; cbn; split;
        intros [??]; split; congruence. }
  unfold cell_mean.
  etrans; [apply (pivot_entry_mean (_ <$> _))|].
  by rewrite floats_of_cells, mean_of_mean.
Qed.

Lemma header_source (s : option string) :
  Frame.header (cell VStr s) = Ok (source_name s).
Proof. by destruct s. Qed.

Lemma distinct_cells {A} `{EqDecision A} (inj : A → value)
    (f : Reading → option A) (rs : list Reading) :
  Inj (=) (=) (cell inj) →
  distinct ((λ r, cell inj (f r)) <$> rs) = cell inj <$> distinct (f <$> rs).
Proof. intros Hinj. by rewrite <-distinct_fmap, <-list_fmap_compose. Qed.

Lemma pivot_column_source (rs : list Reading) (ds : list (option Z))
    (s : option string) :
  Frame.pivot_column Mean
    (mkSeries "Actual Generation (GWh)" Float64
       ((λ r, cell VFloat (generation r)) <$> rs))
    (mkSeries "Date" (Datetime Millis) ((λ r, cell VDatetime (date r)) <$> rs))
    (mkSeries "Primary Source" Utf8 ((λ r, cell VStr (source r)) <$> rs))
    (cell VDatetime <$> ds) (cell VStr s)
  = Ok (mkSeries (source_name s) Float64
          ((λ d, cell VFloat (cell_mean rs s d)) <$> ds)).
Proof.
  unfold Frame.pivot_column. rewrite header_source. cbn [mbind Result_bind bind].
  cbn [agg_values dtype is_numeric is_int is_float orb].
  rewrite traverse_fmap.
  by rewrite (traverse_Ok _ (λ d, cell VFloat (cell_mean rs s d)))
    by (intros; apply pivot_entry_value).
Qed.

(** The pivot on the expected input, when the headers do not clash. *)
Lemma pivot_cell_table (rs : list Reading) :
  NoDup ("Date" :: (source_name <$> distinct (source <$> rs))) →
  pivot_cell (input rs)
  = Ok (pivoted rs (distinct (date <$> rs)) (distinct (source <$> rs))).
Proof.
  intros Hnames. unfold pivot_cell, Frame.pivot. cbn.
  rewrite !distinct_cells by (intros [?|] [?|]; cbn; congruence).
  rewrite traverse_fmap.
  rewrite (traverse_Ok _
    (λ s, mkSeries (source_name s) Float64
            ((λ d, cell VFloat (cell_mean rs s d)) <$> distinct (date <$> rs))))
    by (intros; apply pivot_column_source).
  cbn [mbind Result_bind bind]. apply check_unique_NoDup.
  by rewrite columns_pivoted.
Qed.



End Pivot.

Section HourSource.
Context {FO : FloatOps}.

Lemma eval_group_mean (rs : list Reading) :
  eval (frame_of with_hour_cols rs)
    (Over (Agg Mean (Col "Actual Generation (GWh)")) ["Hour"; "Primary Source"])
  = Ok (Column (mkSeries "Actual Generation (GWh)" Float64
          ((λ r, cell VFloat (group_mean rs (hour_source r))) <$> rs))).
Proof.
  etrans.
  { apply (eval_over_frame (Agg Mean (Col "Actual Generation (GWh)"))
             ["Hour"; "Primary Source"]
             ("Date", Datetime Millis, λ r, cell VDatetime (date r))
             (tail with_hour_cols)
             [("Hour", Int8, λ r, hour_of Millis (cell VDatetime (date r)));
              ("Primary Source", Utf8, λ r, cell VStr (source r))] rs
             "Actual Generation (GWh)" Float64
             (λ rs', cell VFloat (mean (omap generation rs'))) eq_refl).
    intros rs'. cbn. by rewrite floats_of_cells, mean_of_mean. }
  do 3 f_equal. apply list_fmap_ext. intros _ r _. cbn. unfold group_mean.
  do 3 f_equal. apply list_filter_iff. intros r'. unfold hour_source.
  rewrite !hour_of_cell. fold (hour r') (hour r).
  split; [|by intros [= -> ->]].
  destruct (hour r'), (hour r), (source r'), (source r); cbn; congruence.
Qed.

Lemma with_mean (rs : list Reading) :
  Frame.with_columns
    [Alias (Over (Agg Mean (Col "Actual Generation (GWh)"))
                 ["Hour"; "Primary Source"])
           "Hourly Generation"]
    (frame_of with_hour_cols rs)
  = Ok (frame_of (with_mean_cols rs) rs).
Proof.
  unfold Frame.with_columns. cbn [traverse].
  rewrite eval_Alias, eval_group_mean. by run_method.
Qed.

Lemma select_by_hour_source (rs : list Reading) :
  Frame.select [Col "Hour"; Col "Primary Source"; Col "Hourly Generation"]
    (frame_of (with_mean_cols rs) rs)
  = Ok (by_hour_source rs (hour_source <$> rs)).
Proof.
  unfold Frame.select. run_method. unfold by_hour_source, frame_of. cbn.
  rewrite <-!list_fmap_compose. frame_ext; try done. by rewrite hour_of_cell.
Qed.

Lemma by_hour_source_inj (rs : list Reading) :
  Inj (=) (=) (row_of (by_hour_source_cols rs)).
Proof. intros [[?|] [?|]] [[?|] [?|]]; cbn; congruence. Qed.

Lemma rows_le_by_hour (a b : option Z * option string) :
  rows_le false
    [("Hour", Int8, λ k : option Z * option string, cell VInt k.1)] a b
  ↔ by_hour a b.
Proof.
  unfold rows_le, by_hour. destruct a as [[x|] ?], b as [[y|] ?]; cbn;
    try done.
  destruct (Z.leb_spec x y), (Z.leb_spec y x); cbn; split; try done; lia.
Qed.

(** The per-hour-and-source chain on the expected input. *)
Lemma generation_by_hour_source_df_table (w : Scheduler) (rs : list Reading) :
  ∃ ks, generation_by_hour_source_df w (input rs) = Ok (by_hour_source rs ks)
      ∧ ks ≡ₚ distinct (hour_source <$> rs)
      ∧ StronglySorted by_hour ks.
Proof.
  destruct (unique_frame (w 5%nat)
              ("Hour", Int8, λ k : option Z * option string, cell VInt k.1)
              (tail (by_hour_source_cols rs)) (hour_source <$> rs)
              (by_hour_source_inj rs))
    as (ks & Huniq & Hks).
  destruct (sort_frame ["Hour"] false (w 6%nat)
              ("Hour", Int8, λ k : option Z * option string, cell VInt k.1)
              (tail (by_hour_source_cols rs))
              [("Hour", Int8, λ k, cell VInt k.1)] ks eq_refl)
    as (ks' & Hsort & Hks' & Hsorted).
  exists ks'. split_and!.
  - unfold generation_by_hour_source_df. chain;
      [apply with_hour|apply with_mean|apply select_by_hour_source
      |exact Huniq|exact Hsort].
  - by rewrite Hks'.
  - eapply StronglySorted_fmap_inv with (f := id); [|by rewrite list_fmap_id].
    intros x y. apply rows_le_by_hour.
Qed.

End HourSource.

(** ** The cells whose row order is open: sorting by generation, grouping
    by source *)

Section Unordered.
Context {FO : FloatOps}.

Lemma non_null_cells {A} (f : A → option float) (l : list A) :
  length (base.filter (λ v, v ≠ VNull) ((λ x, cell VFloat (f x)) <$> l))
  = length (omap f l).
Proof.
  induction l as [|x l IH]; [done|].
  rewrite fmap_cons, filter_cons. cbn [omap list_omap].
  destruct (f x); cbn; [|done]. rewrite decide_True by done. cbn. by rewrite IH.
Qed.

Lemma sort_cell_rows (w : Scheduler) (rs : list Reading) :
  ∃ rs', sort_cell w (input rs) = Ok (input rs') ∧ rs' ≡ₚ rs.
Proof.
  destruct (sort_frame ["Actual Generation (GWh)"] true (w 0%nat)
              ("Date", Datetime Millis, λ r, cell VDatetime (date r))
              (tail input_cols)
              [("Actual Generation (GWh)", Float64,
                λ r, cell VFloat (generation r))] rs eq_refl)
    as (rs' & Hsort & Hrs & _).
  exists rs'. split; [apply Hsort|done].
Qed.

Lemma by_source_groups (es : list Expr) (aggs : list (@AggSpec FO Reading))
    (sh : Shuffle) (rs : list Reading) :
  Forall2 (λ e a, ∀ rs', eval (input rs') e
                         = Ok (Scalar a.1.1 a.1.2 (a.2 rs'))) es aggs →
  NoDup ("Primary Source" :: ((λ a, a.1.1) <$> aggs)) →
  ∃ ss, Frame.group_by_agg ["Primary Source"] es sh (input rs)
        = Ok (frame_of (by_source_cols aggs rs) ss)
      ∧ ss ≡ₚ distinct (source <$> rs).
Proof.
  intros Hes Hnd.
  apply (group_by_aggs_frame ["Primary Source"] es sh
           ("Date", Datetime Millis, λ r, cell VDatetime (date r))
           (tail input_cols)
           [("Primary Source", Utf8, λ r, cell VStr (source r))] rs
           source [("Primary Source", Utf8, cell VStr)] aggs); try done.
  intros [s1|] [s2|]; cbn; congruence.
Qed.

Lemma group_stats_cell_rows (w : Scheduler) (rs : list Reading) :
  ∃ ss, group_stats_cell w (input rs)
        = Ok (frame_of (by_source_cols source_stats rs) ss)
      ∧ ss ≡ₚ distinct (source <$> rs).
Proof.
  apply by_source_groups; [|by_eval].
  repeat constructor; intros rs'; cbn.
  - by rewrite floats_of_cells.
  - by rewrite floats_of_cells, mean_of_mean.
  - by rewrite non_null_cells.
Qed.

Lemma group_max_cell_rows (w : Scheduler) (rs : list Reading) :
  ∃ ss, group_max_cell w (input rs)
        = Ok (frame_of (by_source_cols source_max rs) ss)
      ∧ ss ≡ₚ distinct (source <$> rs).
Proof.
  apply by_source_groups; [|by_eval].
  repeat constructor; intros rs'; by cbn.
Qed.

End Unordered.

Section Determinism.
Context {FO : FloatOps}.

Lemma option_le_string_antisym (a b : option string) :
  option_le string_le a b → option_le string_le b a → a = b.
Proof.
  destruct a, b; cbn; try done. intros. f_equal. by apply string_leb_antisym.
Qed.

Lemma sorted_hours_unique (l1 l2 : list (option Z)) :
  l1 ≡ₚ l2 →
  StronglySorted (option_le Z.le) l1 → StronglySorted (option_le Z.le) l2 →
  l1 = l2.
Proof.
  intros Hp H1 H2. apply (StronglySorted_unique_strong (option_le Z.le));
    try done.
  intros x y _ _. apply option_le_Z_antisym.
Qed.

Lemma sorted_keys_unique (l1 l2 : list (option Z * option string)) :
  l1 ≡ₚ l2 →
  StronglySorted by_date_then_source l1 →
  StronglySorted by_date_then_source l2 →
  l1 = l2.
Proof.
  intros Hp H1 H2. apply (StronglySorted_unique_strong by_date_then_source);
    try done.
  intros [d1 s1] [d2 s2] _ _ [Hd12 Hs12] [Hd21 Hs21]. cbn in *.
  assert (d1 = d2) as -> by by apply option_le_Z_antisym.
  f_equal. apply option_le_string_antisym; auto.
Qed.

(** C6 (amended): what a chain returns depends on its input and on the row
    order the library picks where a call leaves it open.  The cell that
    sorts by generation and the two that group by source return the same
    rows on every run, in an order that may differ.  The chains that end in
    a sort on a key that is unique per row return the same frame on every
    run; the per-hour-and-source chain, which sorts on [Hour] only, returns
    on every run the same rows, in ascending hour, but rows of one hour in
    any order. *)
Theorem chains_same_up_to_row_order (w1 w2 : Scheduler) (rs : list Reading) :
  same_rows_of input_cols (sort_cell w1 (input rs)) (sort_cell w2 (input rs))
  ∧ same_rows_of (by_source_cols source_stats rs)
      (group_stats_cell w1 (input rs)) (group_stats_cell w2 (input rs))
  ∧ same_rows_of (by_source_cols source_max rs)
      (group_max_cell w1 (input rs)) (group_max_cell w2 (input rs))
  ∧ generation_df w1 (input rs) = generation_df w2 (input rs)
  ∧ rolling_cell w1 (input rs) = rolling_cell w2 (input rs)
  ∧ output_df w1 (input rs) = output_df w2 (input rs)
  ∧ ∃ ks1 ks2 : list (option Z * option string),
      generation_by_hour_source_df w1 (input rs) = Ok (by_hour_source rs ks1)
      ∧ generation_by_hour_source_df w2 (input rs) = Ok (by_hour_source rs ks2)
      ∧ ks1 ≡ₚ ks2
      ∧ StronglySorted by_hour ks1
      ∧ StronglySorted by_hour ks2.
Proof.
  split_and!.
  - destruct (sort_cell_rows w1 rs) as (l1 & H1 & Hp1).
    destruct (sort_cell_rows w2 rs) as (l2 & H2 & Hp2).
    exists l1, l2. split_and!; try done. by rewrite Hp1, Hp2.
  - destruct (group_stats_cell_rows w1 rs) as (l1 & H1 & Hp1).
    destruct (group_stats_cell_rows w2 rs) as (l2 & H2 & Hp2).
    exists l1, l2. split_and!; try done. by rewrite Hp1, Hp2.
  - destruct (group_max_cell_rows w1 rs) as (l1 & H1 & Hp1).
    destruct (group_max_cell_rows w2 rs) as (l2 & H2 & Hp2).
    exists l1, l2. split_and!; try done. by rewrite Hp1, Hp2.
  - destruct (generation_df_table w1 rs) as (l1 & -> & Hp1 & Hs1).
    destruct (generation_df_table w2 rs) as (l2 & -> & Hp2 & Hs2).
    do 2 f_equal. apply sorted_hours_unique; [by rewrite Hp1, Hp2|done..].
  - destruct (rolling_cell_table w1 rs) as (l1 & -> & Hp1 & Hs1).
    destruct (rolling_cell_table w2 rs) as (l2 & -> & Hp2 & Hs2).
    do 2 f_equal. apply sorted_hours_unique; [by rewrite Hp1, Hp2|done..].
  - destruct (output_df_table w1 rs) as (l1 & -> & Hp1 & Hs1).
    destruct (output_df_table w2 rs) as (l2 & -> & Hp2 & Hs2).
    do 2 f_equal. apply sorted_keys_unique; [by rewrite Hp1, Hp2|done..].
  - destruct (generation_by_hour_source_df_table w1 rs) as (l1 & H1 & Hp1 & Hs1).
    destruct (generation_by_hour_source_df_table w2 rs) as (l2 & H2 & Hp2 & Hs2).
    exists l1, l2. split_and!; try done. by rewrite Hp1, Hp2.
Qed.

End Determinism.

(** ** The kernel: what a run leaves in the trace and in the store *)

Section Kernel.
Context {FO : FloatOps}.

Lemma observe_snoc {X} (obs : Event → option X) (tr : list Event) (ev : Event) :
  omap obs (tr ++ [ev]) = omap obs tr ++ from_option (λ x, [x]) [] (obs ev).
Proof. rewrite omap_app. cbn. by destruct (obs ev). Qed.

Lemma clean_snoc (tr : list Event) (ev : Event) :
  clean tr → is_raised ev = false → clean (tr ++ [ev]).
Proof. intros. apply Forall_app. split; [done|]. by constructor. Qed.

(** Every cell is a straight line of kernel operations: unfold them and
    follow each way the cell can go. *)
Ltac nb_unfold :=
  unfold setup_cell, load_cell, inspect_cell, show_cell, assign_cell,
    line_cell, area_cell, export_to, read_excel, inspect, transform, plot,
    need_column, write, var, call, alloc, assign, log, raise, ret,
    mbind, mret, NB_bind, NB_ret, bindNB, from_option.

Ltac nb_cases := nb_unfold; repeat case_match; simplify_eq/=.

Ltac nb_clean :=
  first
    [ done
    | by repeat (apply clean_snoc; [|done])
    | eexists; split; [reflexivity|]; by repeat (apply clean_snoc; [|done]) ].

Ltac nb_phases :=
  rewrite ?observe_snoc; cbn [from_option phase_of access_of];
  rewrite <-?(assoc_L (++));
  cbn [app];
  first
    [ done
    | by rewrite (right_id_L [] (++))
    | eexists; split; [|reflexivity]; cbn [app];
      repeat apply prefix_cons; apply prefix_nil
    | exists []; split; [apply prefix_nil|by rewrite (right_id_L [] (++))] ].

Lemma faithful_then (m1 m2 : NB unit) :
  faithful m1 → faithful m2 → faithful (m1 ;; m2).
Proof.
  intros H1 H2 k Hk. specialize (H1 k Hk).
  unfold mbind, NB_bind, bindNB. destruct (m1 k) as [[[]|e] k']; [|done].
  by apply H2.
Qed.

Lemma emits_then {X} (obs : Event → option X) (ps1 ps2 : list X)
    (m1 m2 : NB unit) :
  emits obs ps1 m1 → emits obs ps2 m2 → emits obs (ps1 ++ ps2) (m1 ;; m2).
Proof.
  intros H1 H2 k. specialize (H1 k).
  unfold mbind, NB_bind, bindNB. destruct (m1 k) as [[[]|e] k'].
  - specialize (H2 k'). destruct (m2 k') as [[[]|e] k''].
    + by rewrite H2, H1, (assoc_L (++)).
    + destruct H2 as (ps' & Hpre & ->). exists (ps1 ++ ps'). split.
      * by apply prefix_app.
      * by rewrite H1, (assoc_L (++)).
  - destruct H1 as (ps' & Hpre & ->). exists ps'. split; [|done].
    by apply prefix_app_r.
Qed.

Lemma keeps_df_then (m1 m2 : NB unit) :
  keeps_df m1 → keeps_df m2 → keeps_df (m1 ;; m2).
Proof.
  intros H1 H2 df0 k Hk. specialize (H1 df0 k Hk).
  unfold mbind, NB_bind, bindNB. destruct (m1 k) as [[[]|e] k']; [|done].
  by apply H2.
Qed.

Lemma setup_cell_faithful : faithful setup_cell.
Proof. intros k Hk. nb_cases; nb_clean. Qed.
Lemma load_cell_faithful (w : World) : faithful (load_cell w).
Proof. intros k Hk. nb_cases; nb_clean. Qed.
Lemma inspect_cell_faithful (what : Inspection) : faithful (inspect_cell what).
Proof. intros k Hk. nb_cases; nb_clean. Qed.
Lemma show_cell_faithful (chain : DataFrame → Result DataFrame) :
  faithful (show_cell chain).
Proof. intros k Hk. nb_cases; nb_clean. Qed.
Lemma assign_cell_faithful (x : string) (chain : DataFrame → Result DataFrame) :
  faithful (assign_cell x chain).
Proof. intros k Hk. nb_cases; nb_clean. Qed.
Lemma line_cell_faithful : faithful line_cell.
Proof. intros k Hk. nb_cases; nb_clean. Qed.
Lemma area_cell_faithful : faithful area_cell.
Proof. intros k Hk. nb_cases; nb_clean. Qed.
Lemma export_to_faithful (w : World) (fmt : Format) (path : string) :
  faithful (export_to w fmt path).
Proof. intros k Hk. nb_cases; nb_clean. Qed.
Lemma export_cell_faithful (w : World) : faithful (export_cell w).
Proof. repeat apply faithful_then; apply export_to_faithful. Qed.


Lemma setup_cell_access : emits access_of [] setup_cell.
Proof. intros k. nb_cases; nb_phases. Qed.
Lemma load_cell_access (w : World) :
  emits access_of [Reads data_path] (load_cell w).
Proof. intros k. nb_cases; nb_phases. Qed.
Lemma inspect_cell_access (what : Inspection) :
  emits access_of [] (inspect_cell what).
Proof. intros k. nb_cases; nb_phases. Qed.
Lemma show_cell_access (chain : DataFrame → Result DataFrame) :
  emits access_of [] (show_cell chain).
Proof. intros k. nb_cases; nb_phases. Qed.
Lemma assign_cell_access (x : string) (chain : DataFrame → Result DataFrame) :
  emits access_of [] (assign_cell x chain).
Proof. intros k. nb_cases; nb_phases. Qed.
Lemma line_cell_access : emits access_of [] line_cell.
Proof. intros k. nb_cases; nb_phases. Qed.
Lemma area_cell_access : emits access_of [] area_cell.
Proof. intros k. nb_cases; nb_phases. Qed.
Lemma export_to_access (w : World) (fmt : Format) (path : string) :
  emits access_of [Writes fmt path] (export_to w fmt path).
Proof. intros k. nb_cases; nb_phases. Qed.
Lemma export_cell_access (w : World) :
  emits access_of
    [Writes Csv "output.csv"; Writes Xlsx "output.xlsx";
     Writes Parquet "output.parquet"]
    (export_cell w).
Proof.
  apply (emits_then _ [_] [_; _]); [apply export_to_access|].
  apply (emits_then _ [_] [_]); apply export_to_access.
Qed.

Ltac nb_loaded :=
  lazymatch goal with
  | H : loaded _ _ |- _ => destruct H as [Hvar Hobj]
  end;
  nb_cases;
  (split; cbn;
   [ rewrite ?lookup_insert_ne by done; done
   | repeat apply lookup_app_l_Some; done ]).

Lemma setup_cell_keeps_df : keeps_df setup_cell.
Proof. intros df0 k Hk. by nb_cases. Qed.
Lemma inspect_cell_keeps_df (what : Inspection) : keeps_df (inspect_cell what).
Proof. intros df0 k Hk. nb_loaded. Qed.
Lemma show_cell_keeps_df (chain : DataFrame → Result DataFrame) :
  keeps_df (show_cell chain).
Proof. intros df0 k Hk. nb_loaded. Qed.
Lemma assign_cell_keeps_df (x : string) (chain : DataFrame → Result DataFrame) :
  x ≠ "df" → keeps_df (assign_cell x chain).
Proof. intros Hx df0 k Hk. nb_loaded. Qed.
Lemma line_cell_keeps_df : keeps_df line_cell.
Proof. intros df0 k Hk. nb_loaded. Qed.
Lemma area_cell_keeps_df : keeps_df area_cell.
Proof. intros df0 k Hk. nb_loaded. Qed.
Lemma export_to_keeps_df (w : World) (fmt : Format) (path : string) :
  keeps_df (export_to w fmt path).
Proof. intros df0 k Hk. nb_loaded. Qed.
Lemma export_cell_keeps_df (w : World) : keeps_df (export_cell w).
Proof. repeat apply keeps_df_then; apply export_to_keeps_df. Qed.




(** *** Runs *)

Lemma run_cells_cons (c : NB unit) (cells : list (NB unit)) (k : Kernel) :
  run_cells (c :: cells) k
  = match c k with
    | (Ok _, k') => run_cells cells k'
    | (Err e, k') => (Err e, k')
    end.
Proof. done. Qed.

Lemma run_cells_app (cells1 cells2 : list (NB unit)) (k : Kernel) :
  run_cells (cells1 ++ cells2) k
  = match run_cells cells1 k with
    | (Ok _, k') => run_cells cells2 k'
    | (Err e, k') => (Err e, k')
    end.
Proof.
  revert k. induction cells1 as [|c cells1 IH]; intros k; [done|].
  rewrite <-app_comm_cons, !run_cells_cons.
  destruct (c k) as [[[]|e] k']; [apply IH|done].
Qed.

Lemma run_cells_faithful (cells : list (NB unit)) :
  Forall faithful cells → faithful (run_cells cells).
Proof.
  induction 1 as [|c cells Hc _ IH]; intros k Hk; [done|].
  rewrite run_cells_cons. specialize (Hc k Hk).
  destruct (c k) as [[[]|e] k']; [by apply IH|done].
Qed.

Lemma run_cells_emits {X} (obs : Event → option X) (pss : list (list X))
    (cells : list (NB unit)) :
  Forall2 (emits obs) pss cells → emits obs (concat pss) (run_cells cells).
Proof.
  induction 1 as [|ps c pss cells Hc _ IH]; intros k.
  - cbn. by rewrite (right_id_L [] (++)).
  - rewrite run_cells_cons. specialize (Hc k).
    destruct (c k) as [[[]|e] k']; cbn [concat].
    + specialize (IH k'). destruct (run_cells cells k') as [[[]|e] k''].
      * by rewrite IH, Hc, (assoc_L (++)).
      * destruct IH as (ps' & Hpre & ->). exists (ps ++ ps'). split.
        -- by apply prefix_app.
        -- by rewrite Hc, (assoc_L (++)).
    + destruct Hc as (ps' & Hpre & ->). exists ps'. split; [|done].
      by apply prefix_app_r.
Qed.

Lemma run_cells_keeps_df (cells : list (NB unit)) :
  Forall keeps_df cells → keeps_df (run_cells cells).
Proof.
  induction 1 as [|c cells Hc _ IH]; intros df0 k Hk; [done|].
  rewrite run_cells_cons. specialize (Hc df0 k Hk).
  destruct (c k) as [[[]|e] k']; [by apply IH|done].
Qed.


Lemma notebook_faithful (w : World) : Forall faithful (notebook w).
Proof.
  repeat constructor;
    auto using setup_cell_faithful, load_cell_faithful, inspect_cell_faithful,
      show_cell_faithful, assign_cell_faithful, line_cell_faithful,
      area_cell_faithful, export_cell_faithful.
Qed.


Lemma notebook_access (w : World) :
  Forall2 (emits access_of)
    ([[]; [Reads data_path]] ++ replicate 20 []
     ++ [[Writes Csv "output.csv"; Writes Xlsx "output.xlsx";
          Writes Parquet "output.parquet"]])
    (notebook w).
Proof.
  repeat constructor;
    auto using setup_cell_access, load_cell_access, inspect_cell_access,
      show_cell_access, assign_cell_access, line_cell_access,
      area_cell_access, export_cell_access.
Qed.

Lemma after_load_keeps_df (w : World) : Forall keeps_df (after_load w).
Proof.
  unfold after_load, notebook. cbn [drop].
  repeat apply Forall_cons_2; try apply Forall_nil;
    auto using inspect_cell_keeps_df, show_cell_keeps_df, line_cell_keeps_df,
      area_cell_keeps_df, export_cell_keeps_df;
    by apply assign_cell_keeps_df.
Qed.



Lemma load_cell_loads (w : World) (df0 : DataFrame) :
  excel w data_path = Ok df0 →
  run_cells [setup_cell; load_cell w] fresh_kernel
  = (Ok (),
     mkKernel [df0] {["df" := 0%nat]} ∅
       [Loaded data_path; Inspected Head (Frame.head 5 df0)]).
Proof.
  intros Hx. cbn. nb_cases; rewrite lookup_insert_eq in *; by simplify_eq/=.
Qed.


Lemma df_loaded_after (w : World) (df0 : DataFrame) (n : nat) :
  excel w data_path = Ok df0 →
  (2 ≤ n)%nat →
  loaded df0 (run_cells (take n (notebook w)) fresh_kernel).2.
Proof.
  intros Hx Hn.
  destruct n as [|[|n]]; try lia.
  change (take (S (S n)) (notebook w))
    with ([setup_cell; load_cell w] ++ take n (after_load w)).
  rewrite run_cells_app, (load_cell_loads w df0 Hx).
  apply (run_cells_keeps_df (take n (after_load w))).
  - apply Forall_take, after_load_keeps_df.
  - split; [apply lookup_insert_eq|done].
Qed.


(** *** The export *)

Lemma assign_cell_run (x : string) (chain : DataFrame → Result DataFrame)
    (k : Kernel) (df0 : DataFrame) :
  loaded df0 k →
  assign_cell x chain k
  = match chain df0 with
    | Ok t => (Ok (),
               mkKernel (heap k ++ [t]) (<[x := length (heap k)]> (vars k))
                 (disk k) (trace k ++ [Transformed t]))
    | Err e => (Err e,
                mkKernel (heap k) (vars k) (disk k) (trace k ++ [Raised e]))
    end.
Proof.
  intros [Hvar Hobj]. nb_unfold. rewrite Hvar, Hobj.
  by destruct (chain df0).
Qed.

Lemma export_to_run (w : World) (fmt : Format) (path : string) (k : Kernel)
    (ref : nat) (t : DataFrame) :
  vars k !! "output_df" = Some ref →
  heap k !! ref = Some t →
  export_to w fmt path k
  = match write_fault w fmt path with
    | Some e => (Err e,
                 mkKernel (heap k) (vars k) (disk k) (trace k ++ [Raised e]))
    | None => (Ok (),
               mkKernel (heap k) (vars k) (<[path := (fmt, t)]> (disk k))
                 (trace k ++ [Written fmt path t]))
    end.
Proof.
  intros Hvar Hobj. nb_unfold. rewrite Hvar, Hobj.
  by destruct (write_fault w fmt path).
Qed.


Lemma written_no_access (tr : list Event) :
  (∀ f p, Writes f p ∉ accesses tr) → written tr = [].
Proof.
  unfold accesses, written. induction tr as [|ev tr IH]; intros Hno; [done|].
  destruct ev; cbn in *; try (by apply IH).
  - apply IH. intros f p Hin. apply (Hno f p). by right.
  - destruct (Hno fmt path). by left.
Qed.


(** The state of a run that reached the export cells. *)
Lemma before_export (w : World) (df0 : DataFrame) (k : Kernel) :
  excel w data_path = Ok df0 →
  run_cells (take 21 (notebook w)) fresh_kernel = (Ok (), k) →
  loaded df0 k ∧ written (trace k) = [].
Proof.
  intros Hx Hrun. split.
  - pose proof (df_loaded_after w df0 21 Hx ltac:(lia)) as H.
    by rewrite Hrun in H.
  - apply written_no_access. intros f p.
    pose proof (run_cells_emits access_of _ _
                  (Forall2_take _ _ _ 21 (notebook_access w)) fresh_kernel) as H.
    rewrite Hrun in H. unfold accesses. rewrite H. cbn.
    rewrite list_elem_of_singleton. done.
Qed.


Lemma show_cell_run (chain : DataFrame → Result DataFrame) (k : Kernel)
    (df0 : DataFrame) :
  loaded df0 k →
  show_cell chain k
  = match chain df0 with
    | Ok t => (Ok (),
               mkKernel (heap k ++ [t]) (vars k) (disk k)
                 (trace k ++ [Transformed t]))
    | Err e => (Err e,
                mkKernel (heap k) (vars k) (disk k) (trace k ++ [Raised e]))
    end.
Proof.
  intros [Hvar Hobj]. nb_unfold. rewrite Hvar, Hobj.
  by destruct (chain df0).
Qed.

(** A chain that fails on [df] fails its cell with the same error. *)
Lemma chain_cell_fails (chain : DataFrame → Result DataFrame) (c : NB unit)
    (k : Kernel) (df0 : DataFrame) (e : Error) :
  chain_cell chain c → loaded df0 k → chain df0 = Err e →
  c k = (Err e, mkKernel (heap k) (vars k) (disk k) (trace k ++ [Raised e])).
Proof.
  intros [->|[x ->]] Hk He.
  - by rewrite (show_cell_run _ _ _ Hk), He.
  - by rewrite (assign_cell_run _ _ _ _ Hk), He.
Qed.

(** Such a cell reads [df]: in a kernel without it, it fails. *)
Lemma chain_cell_needs_df (chain : DataFrame → Result DataFrame)
    (c : NB unit) :
  chain_cell chain c → (c fresh_kernel).1 = Err (NameError "df").
Proof. by intros [->|[x ->]]. Qed.

Lemma chain_cell_after_load (w : World) (df0 : DataFrame) (n : nat)
    (chain : DataFrame → Result DataFrame) (c : NB unit) :
  excel w data_path = Ok df0 →
  notebook w !! n = Some c → chain_cell chain c → (2 ≤ n)%nat.
Proof.
  intros Hx Hc Hchain%chain_cell_needs_df.
  destruct n as [|[|n]]; [| |lia]; cbn in Hc; simplify_eq.
  pose proof (load_cell_loads w df0 Hx) as Hload.
  rewrite !run_cells_cons in Hload.
  change (setup_cell fresh_kernel) with (@Ok unit (), fresh_kernel) in Hload.
  cbv iota beta in Hload. rewrite run_cells_cons in Hload.
  destruct (load_cell w fresh_kernel) as [[[]|e] k]; by simplify_eq/=.
Qed.

(** The first error stops the run, and the run ends as the cell did. *)
Lemma failing_cell_stops_run (cells : list (NB unit)) (n : nat) (c : NB unit)
    (k0 k k' : Kernel) (e : Error) :
  cells !! n = Some c →
  run_cells (take n cells) k0 = (Ok (), k) →
  c k = (Err e, k') →
  run_cells cells k0 = (Err e, k').
Proof.
  intros Hc Hrun Hfail.
  by rewrite <-(take_drop_middle cells n c Hc), run_cells_app, Hrun,
       run_cells_cons, Hfail.
Qed.

Lemma export_cell_result (w : World) (k : Kernel) (ref : nat) (t : DataFrame) :
  vars k !! "output_df" = Some ref →
  heap k !! ref = Some t →
  (export_cell w k).1 = from_option Err (Ok ()) (first_write_fault w).
Proof.
  intros Hvar Hobj.
  unfold export_cell, first_write_fault, mbind, NB_bind, bindNB.
  rewrite (export_to_run w Csv "output.csv" k ref t Hvar Hobj).
  destruct (write_fault w Csv "output.csv"); [done|].
  rewrite (export_to_run w Xlsx "output.xlsx"
             (mkKernel (heap k) (vars k) _ _) ref t Hvar Hobj).
  destruct (write_fault w Xlsx "output.xlsx"); [done|].
  rewrite (export_to_run w Parquet "output.parquet"
             (mkKernel (heap k) (vars k) _ _) ref t Hvar Hobj).
  by destruct (write_fault w Parquet "output.parquet").
Qed.

Lemma reader_error_stops_run (w : World) (e : Error) (n : nat) :
  excel w data_path = Err e →
  (2 ≤ n)%nat →
  run_cells (take n (notebook w)) fresh_kernel
  = (Err e, mkKernel [] ∅ ∅ [Raised e]).
Proof.
  intros He Hn.
  assert (load_cell w fresh_kernel = (Err e, mkKernel [] ∅ ∅ [Raised e]))
    as Hload by (nb_cases; done).
  destruct n as [|[|n]]; try lia.
  change (take (S (S n)) (notebook w))
    with ([setup_cell; load_cell w] ++ take n (after_load w)).
  rewrite run_cells_app, !run_cells_cons.
  change (setup_cell fresh_kernel) with (@Ok unit (), fresh_kernel).
  cbv iota beta. by rewrite run_cells_cons, Hload.
Qed.

(** A run that reached the export ends as the writes do. *)
Lemma export_decides_run (w : World) (k : Kernel) :
  run_cells (take 22 (notebook w)) fresh_kernel = (Ok (), k) →
  (run w).1 = from_option Err (Ok ()) (first_write_fault w).
Proof.
  intros Hrun.
  destruct (excel w data_path) as [df0|e] eqn:Hx; last first.
  { by rewrite (reader_error_stops_run w e 22 Hx) in Hrun by lia. }
  unfold run.
  change (notebook w) with (take 22 (notebook w) ++ [export_cell w]).
  rewrite run_cells_app, Hrun, run_cells_cons.
  change (take 22 (notebook w))
    with (take 21 (notebook w)
          ++ [assign_cell "output_df" (output_df (sched w))]) in Hrun.
  rewrite run_cells_app in Hrun.
  destruct (run_cells (take 21 (notebook w)) fresh_kernel)
    as [[[]|e] k1] eqn:Hk1; [|done].
  destruct (before_export w df0 k1 Hx Hk1) as [Hdf _].
  rewrite run_cells_cons, (assign_cell_run _ _ _ _ Hdf) in Hrun.
  destruct (output_df (sched w) df0) as [t|e]; [|done].
  cbn in Hrun. unfold ret in Hrun. injection Hrun as <-.
  rewrite <-(export_cell_result w
               (mkKernel (heap k1 ++ [t])
                  (<["output_df" := length (heap k1)]> (vars k1)) (disk k1)
                  (trace k1 ++ [Transformed t]))
               (length (heap k1)) t);
    [|by apply lookup_insert_eq|by apply list_lookup_middle].
  by destruct (export_cell w _) as [[[]|e] k'].
Qed.

(** C5: a run reports the error a library call raised, as it was raised:
    a run that ends well has raised nothing, and a run that ends in an error
    [e] has [Raised e] as the last event of its trace and no other error
    before it: no error is caught, replaced or followed by further work.
    Case by case: a spreadsheet that cannot be read stops the run at once
    with the reader's own error; a method chain that fails on [df] with [e]
    ends the run with [e], the kernel being as the cells before left it but
    for the error raised; and a run that reached the export ends well if all
    three writes do, and with the error of the first write that fails
    otherwise. *)
Theorem errors_reach_the_caller_unchanged (w : World) :
  match run w with
  | (Ok _, k) => clean (trace k)
  | (Err e, k) => ∃ evs, trace k = evs ++ [Raised e] ∧ clean evs
  end
  ∧ (∀ e, excel w data_path = Err e →
          run w = (Err e, mkKernel [] ∅ ∅ [Raised e]))
  ∧ (∀ df0 n c chain k e,
       excel w data_path = Ok df0 →
       notebook w !! n = Some c → chain_cell chain c →
       run_cells (take n (notebook w)) fresh_kernel = (Ok (), k) →
       chain df0 = Err e →
       run w = (Err e,
                mkKernel (heap k) (vars k) (disk k) (trace k ++ [Raised e])))
  ∧ (∀ k, run_cells (take 22 (notebook w)) fresh_kernel = (Ok (), k) →
          (run w).1 = from_option Err (Ok ()) (first_write_fault w)).
Proof.
  split_and!.
  - apply (run_cells_faithful _ (notebook_faithful w) fresh_kernel).
    constructor.
  - intros e He.
    by rewrite <-(reader_error_stops_run w e 23 He) by lia.
  - intros df0 n c chain k e Hx Hc Hchain Hrun He.
    apply (failing_cell_stops_run _ n c _ k); [done..|].
    apply (chain_cell_fails chain c k df0); [done| |done].
    pose proof (chain_cell_after_load w df0 n chain c Hx Hc Hchain) as Hn.
    pose proof (df_loaded_after w df0 n Hx Hn) as Hdf.
    by rewrite Hrun in Hdf.
  - apply export_decides_run.
Qed.

End Kernel.

Section Derive.
Context {FO : FloatOps}.

Lemma mul_value_1000 v : mul_value v (VInt 1000) = times_1000 v.
Proof. by destruct v. Qed.

Lemma set_column_fresh (s : Series) (df : DataFrame) :
  name s ∉ columns df → Frame.set_column s df = df ++ [s].
Proof.
  induction df as [|c df IH]; cbn; [done|].
  rewrite not_elem_of_cons. intros [Hne Hnot].
  rewrite (proj2 (String.eqb_neq _ _)) by done. by rewrite IH.
Qed.

Lemma derive_cell_fresh (df : DataFrame) (g : Series) :
  get_column "Actual Generation (GWh)" df = Ok g →
  dtype g = Float64 →
  length (values g) = height df →
  "Generation_MWh" ∉ columns df →
  derive_cell df =
    Ok (df ++ [mkSeries "Generation_MWh" Float64 (times_1000 <$> values g)]).
Proof.
  intros Hg Ht Hlen Hfresh.
  unfold derive_cell, Frame.with_columns. cbn. rewrite Hg. cbn.
  rewrite Ht. cbn.
  rewrite to_series_Column by (cbn; by rewrite length_fmap). cbn.
  rewrite check_unique_NoDup by by_eval. cbn.
  rewrite set_column_fresh by done.
  unfold with_name; cbn. do 4 f_equal.
  apply list_fmap_ext. intros _ v _. apply mul_value_1000.
Qed.

(** C10: the derive cell appends exactly one column, [Generation_MWh], of
    1000 times the generation of the same row, and every column that was
    there stays as it was: same names, types and values, in the same order,
    so the same rows in the same order.  This holds for every spreadsheet
    of the expected columns, and more generally for every frame that has a
    float generation column and no column called [Generation_MWh] yet. *)
Theorem derive_cell_appends_column :
  (∀ rs : list Reading,
     derive_cell (input rs) =
       Ok (input rs
           ++ [mkSeries "Generation_MWh" Float64
                 ((λ r, times_1000 (cell VFloat (generation r))) <$> rs)]))
  ∧ (∀ (df : DataFrame) (g : Series),
       get_column "Actual Generation (GWh)" df = Ok g →
       dtype g = Float64 →
       length (values g) = height df →
       "Generation_MWh" ∉ columns df →
       derive_cell df =
         Ok (df ++ [mkSeries "Generation_MWh" Float64
                      (times_1000 <$> values g)])).
Proof.
  split; [|exact derive_cell_fresh].
  intros rs.
  rewrite (derive_cell_fresh (input rs)
             (mkSeries "Actual Generation (GWh)" Float64
                ((λ r, cell VFloat (generation r)) <$> rs))).
  - cbn [values]. by rewrite <-list_fmap_compose.
  - done.
  - done.
  - cbn. by rewrite !length_fmap.
  - by_eval.
Qed.

End Derive.

(** * The other cells of the notebook *)

Section Columns.
Context {FO : FloatOps}.

Lemma get_column_name (n : string) (df : DataFrame) (s : Series) :
  get_column n df = Ok s → name s = n ∧ s ∈ df.
Proof.
  induction df as [|c df IH]; cbn; [done|].
  destruct (String.eqb_spec (name c) n) as [Hn|Hn].
  - intros [= <-]. split; [done|by left].
  - intros [? ?]%IH. split; [done|by right].
Qed.

Lemma get_column_missing (n : string) (df : DataFrame) :
  n ∉ columns df → get_column n df = Err (ColumnNotFoundError n).
Proof.
  induction df as [|c df IH]; cbn; [done|].
  rewrite not_elem_of_cons. intros [Hne Hnot].
  destruct (String.eqb_spec (name c) n) as [Hn|Hn]; [done|by apply IH].
Qed.

Lemma get_column_present (n : string) (df : DataFrame) :
  n ∈ columns df → ∃ s, get_column n df = Ok s.
Proof.
  induction df as [|c df IH]; cbn; [by intros ?%elem_of_nil|].
  destruct (String.eqb_spec (name c) n) as [Hn|Hn]; [by eexists|].
  rewrite elem_of_cons. intros [|]; [done|by apply IH].
Qed.

End Columns.

Section Select.
Context {FO : FloatOps}.

Lemma select_cell_columns (df : DataFrame) (d g s : Series) :
  get_column "Date" df = Ok d →
  get_column "Actual Generation (GWh)" df = Ok g →
  get_column "Primary Source" df = Ok s →
  length (values g) = length (values d) →
  length (values s) = length (values d) →
  select_cell df = Ok [d; g; s].
Proof.
  intros Hd Hg Hs Hgd Hsd.
  unfold select_cell, Frame.select. cbn. rewrite Hd, Hg, Hs. cbn.
  rewrite !to_series_Column by done. cbn.
  apply check_unique_NoDup. cbn.
  apply get_column_name in Hd as [-> _], Hg as [-> _], Hs as [-> _].
  by_eval.
Qed.

(** X2: selecting the three columns by name keeps them as they are, in the
    order asked for, and drops every other column; on a spreadsheet that has
    just these three columns the cell returns the frame it was given. *)
Theorem select_cell_keeps_the_three_columns :
  (∀ rs : list Reading, select_cell (input rs) = Ok (input rs))
  ∧ (∀ (df : DataFrame) (d g s : Series),
       get_column "Date" df = Ok d →
       get_column "Actual Generation (GWh)" df = Ok g →
       get_column "Primary Source" df = Ok s →
       length (values g) = length (values d) →
       length (values s) = length (values d) →
       select_cell df = Ok [d; g; s]).
Proof.
  split; [|exact select_cell_columns].
  intros rs. apply select_cell_columns; try done; cbn; by rewrite !length_fmap.
Qed.

End Select.

Section Rename.
Context {FO : FloatOps}.

Lemma renamed_new_name (n : string) :
  Frame.renamed [("Actual Generation (GWh)", "Generation");
                 ("Primary Source", "Source")] n
  = new_name n.
Proof.
  unfold Frame.renamed, new_name. cbn.
  destruct (String.eqb_spec n "Actual Generation (GWh)") as [->|Hg].
  { by rewrite decide_True. }
  rewrite decide_False by done. cbn.
  destruct (String.eqb_spec n "Primary Source") as [->|Hs].
  { by rewrite decide_True. }
  by rewrite decide_False.
Qed.

Lemma new_name_clash (x y : string) :
  new_name x = new_name y → x ≠ y →
  new_name x = "Generation" ∨ new_name x = "Source".
Proof.
  unfold new_name.
  destruct (String.eqb_spec x "Actual Generation (GWh)"); [by left|].
  destruct (String.eqb_spec x "Primary Source"); [by right|].
  destruct (String.eqb_spec y "Actual Generation (GWh)"); [by left|].
  destruct (String.eqb_spec y "Primary Source"); [by right|done].
Qed.

Lemma new_name_fresh (x : string) :
  x ≠ "Generation" → x ≠ "Source" →
  (new_name x = "Generation" → x = "Actual Generation (GWh)")
  ∧ (new_name x = "Source" → x = "Primary Source").
Proof.
  unfold new_name. intros Hg Hs.
  destruct (String.eqb_spec x "Actual Generation (GWh)"); [done|].
  destruct (String.eqb_spec x "Primary Source"); [done|].
  done.
Qed.

Lemma NoDup_new_names (ns : list string) :
  NoDup ns → "Generation" ∉ ns → "Source" ∉ ns → NoDup (new_name <$> ns).
Proof.
  intros Hnd Hg Hs. apply NoDup_fmap_2_strong; [|done].
  intros x y Hx Hy Hxy. destruct (decide (x = y)) as [|Hne]; [done|].
  assert (x ≠ "Generation" ∧ x ≠ "Source" ∧ y ≠ "Generation" ∧ y ≠ "Source")
    as (Hx1 & Hx2 & Hy1 & Hy2) by (split_and!; by intros ->).
  destruct (new_name_fresh x Hx1 Hx2) as [Hxg Hxs].
  destruct (new_name_fresh y Hy1 Hy2) as [Hyg Hys].
  destruct (new_name_clash x y Hxy Hne) as [H|H].
  - rewrite (Hxg H). symmetry. apply Hyg. by rewrite <-Hxy.
  - rewrite (Hxs H). symmetry. apply Hys. by rewrite <-Hxy.
Qed.

Lemma first_duplicate_Some (ns : list string) (n : string) :
  first_duplicate ns = Some n →
  ∃ l1 l2, ns = l1 ++ n :: l2 ∧ n ∈ l2.
Proof.
  induction ns as [|m ns IH]; cbn; [done|].
  case_decide as Hm.
  - intros [= <-]. by exists [], ns.
  - intros (l1 & l2 & -> & Hin)%IH. by exists (m :: l1), l2.
Qed.

Lemma first_duplicate_None (ns : list string) :
  first_duplicate ns = None → NoDup ns.
Proof.
  induction ns as [|m ns IH]; cbn; [constructor|].
  case_decide as Hm; [done|]. intros H. constructor; [done|by apply IH].
Qed.

Lemma rename_cell_unfold (df : DataFrame) :
  "Actual Generation (GWh)" ∈ columns df →
  "Primary Source" ∈ columns df →
  rename_cell df
  = check_unique ((λ s, with_name (new_name (name s)) s) <$> df).
Proof.
  intros [g Hg]%get_column_present [s Hs]%get_column_present.
  unfold rename_cell, Frame.rename. cbn. rewrite Hg, Hs. cbn.
  f_equal. apply list_fmap_ext. intros _ c _. by rewrite renamed_new_name.
Qed.

Lemma columns_renamed (df : DataFrame) :
  columns ((λ s, with_name (new_name (name s)) s) <$> df)
  = new_name <$> columns df.
Proof. unfold columns. by rewrite <-!list_fmap_compose. Qed.

(** X3: the rename cell changes two names and nothing else: every column
    keeps its place, its type and its values, [Actual Generation (GWh)] is
    now [Generation] and [Primary Source] is [Source].  It needs both
    columns, and a frame that has no column of either new name yet. *)
Theorem rename_cell_changes_names_only (df : DataFrame) :
  "Actual Generation (GWh)" ∈ columns df →
  "Primary Source" ∈ columns df →
  NoDup (columns df) →
  "Generation" ∉ columns df →
  "Source" ∉ columns df →
  rename_cell df
  = Ok ((λ s, mkSeries (new_name (name s)) (dtype s) (values s)) <$> df).
Proof.
  intros Hg Hs Hnd Hng Hns. rewrite rename_cell_unfold by done.
  apply check_unique_NoDup. rewrite columns_renamed.
  by apply NoDup_new_names.
Qed.

(** X4: what the rename cell raises.  Without the generation column, or
    with it but without the source column, the error names the column that
    is missing; with both, a column already called [Generation] or [Source]
    makes the new names clash, and the error names one of the two. *)
Theorem rename_cell_errors (df : DataFrame) :
  ("Actual Generation (GWh)" ∉ columns df →
   rename_cell df = Err (ColumnNotFoundError "Actual Generation (GWh)"))
  ∧ ("Actual Generation (GWh)" ∈ columns df →
     "Primary Source" ∉ columns df →
     rename_cell df = Err (ColumnNotFoundError "Primary Source"))
  ∧ ("Actual Generation (GWh)" ∈ columns df →
     "Primary Source" ∈ columns df →
     NoDup (columns df) →
     "Generation" ∈ columns df ∨ "Source" ∈ columns df →
     rename_cell df = Err (DuplicateError "Generation")
     ∨ rename_cell df = Err (DuplicateError "Source")).
Proof.
  split_and!.
  - intros Hg%get_column_missing.
    unfold rename_cell, Frame.rename. cbn. by rewrite Hg.
  - intros [g Hg]%get_column_present Hs%get_column_missing.
    unfold rename_cell, Frame.rename. cbn. by rewrite Hg, Hs.
  - intros Hg Hs Hnd Hclash. rewrite rename_cell_unfold by done.
    unfold check_unique. rewrite columns_renamed.
    destruct (first_duplicate (new_name <$> columns df)) as [n|] eqn:Hdup.
    + apply first_duplicate_Some in Hdup as (l1 & l2 & Hsplit & Hin).
      apply fmap_app_inv in Hsplit as (c1 & c2' & -> & Hc2 & Hcols).
      symmetry in Hc2.
      apply fmap_cons_inv in Hc2 as (x & c2 & -> & -> & ->).
      apply list_elem_of_fmap in Hin as (y & Hxy & Hy).
      rewrite Hcols in Hnd. apply NoDup_app in Hnd as (_ & _ & Hnd).
      apply NoDup_cons in Hnd as [Hx _].
      assert (x ≠ y) as Hne by (by intros ->).
      destruct (new_name_clash x y Hxy Hne) as [->| ->]; [by left|by right].
    + exfalso. apply first_duplicate_None in Hdup.
      assert (∀ a b, a ∈ columns df → b ∈ columns df →
                new_name a = new_name b → a = b) as Hinj.
      { intros a b Ha Hb Hab.
        apply list_elem_of_lookup in Ha as [i Hi], Hb as [j Hj].
        assert (i = j) as ->; [|congruence].
        eapply NoDup_lookup; [exact Hdup|..];
          rewrite list_lookup_fmap; [by rewrite Hi|by rewrite Hj, Hab]. }
      destruct Hclash as [Hc|Hc].
      * by specialize (Hinj _ _ Hg Hc eq_refl).
      * by specialize (Hinj _ _ Hs Hc eq_refl).
Qed.

End Rename.

Section Filters.
Context {FO : FloatOps}.

Lemma filter_where (pred : Expr) (n : string) (f : Reading → value)
    (P : Reading → Prop) `{∀ r, Decision (P r)} (rs : list Reading) :
  eval (input rs) pred = Ok (Column (mkSeries n Boolean (f <$> rs))) →
  (∀ r, Frame.is_true (f r) = bool_decide (P r)) →
  Frame.filter pred (input rs) = Ok (input (base.filter P rs)).
Proof.
  intros Hpred Hf. unfold Frame.filter. rewrite Hpred.
  cbn [mbind Result_bind bind ev_dtype dtype]. rewrite decide_True by done.
  rewrite to_series_Column
    by (cbn; by rewrite !length_fmap).
  cbn [mbind Result_bind bind values]. f_equal.
  unfold input. rewrite filter_rows_frame. f_equal.
  rewrite <-list_fmap_compose.
  rewrite (list_fmap_ext (Frame.is_true ∘ f) (λ r, bool_decide (P r)) rs)
    by (intros; apply Hf).
  apply (filter_mask_decide P).
Qed.

Lemma filter_source_cell_rows (rs : list Reading) :
  filter_source_cell (input rs) = Ok (input (base.filter thermal rs)).
Proof.
  apply (filter_where _ "Primary Source"
           (λ r, eq_value (cell VStr (source r)) (VStr "Thermal")) thermal).
  - cbn. by rewrite <-list_fmap_compose.
  - intros [d g [s|]]; unfold thermal; cbn; [|done].
    destruct (bool_decide (VStr s = VStr "Thermal")) eqn:Hs; symmetry.
    + apply bool_decide_eq_true. apply bool_decide_eq_true in Hs. congruence.
    + apply bool_decide_eq_false. apply bool_decide_eq_false in Hs. congruence.
Qed.

Lemma filter_generation_cell_rows (rs : list Reading) :
  filter_generation_cell (input rs)
  = Ok (input (base.filter (λ r, above 10 r) rs)).
Proof.
  apply (filter_where _ "Actual Generation (GWh)"
           (λ r, gt_value (cell VFloat (generation r)) (VInt 10))
           (λ r, above 10 r)).
  - cbn. by rewrite <-list_fmap_compose.
  - intros [d [x|] s]; unfold above; cbn; [|done].
    by destruct (fleb x (float_of_Z 10)).
Qed.

(** X6: each filter cell returns the columns it was given with exactly the
    readings that pass its test, in the order they had: the first keeps
    the readings of the source [Thermal], the second those whose generation
    is not at most 10.  A reading whose source, or generation, is missing
    passes neither test. *)
Theorem filter_cells_keep_the_matching_readings (rs : list Reading) :
  filter_source_cell (input rs) = Ok (input (base.filter thermal rs))
  ∧ filter_generation_cell (input rs)
    = Ok (input (base.filter (λ r, above 10 r) rs))
  ∧ (∀ r, source r = None → ¬ thermal r)
  ∧ (∀ r, generation r = None → above 10 r = false).
Proof.
  split_and!.
  - apply filter_source_cell_rows.
  - apply filter_generation_cell_rows.
  - unfold thermal. by intros r ->.
  - unfold above. by intros r ->.
Qed.

End Filters.

Section SortCell.
Context {FO : FloatOps}.

Lemma rows_le_generation_desc (a b : Reading) :
  rows_le true
    [("Actual Generation (GWh)", Float64, λ r, cell VFloat (generation r))] a b
  ↔ by_generation_desc a b.
Proof.
  unfold rows_le, by_generation_desc.
  destruct a as [da [x|] sa], b as [db [y|] sb]; cbn; try done.
  destruct (fleb y x), (fleb x y); cbn; split; done.
Qed.

(** X7: the sort cell returns the readings it was given, each once, with
    the largest generation first; the readings without a generation come
    before all others. *)
Theorem sort_cell_descending (w : Scheduler) (rs : list Reading) :
  ∃ rs', sort_cell w (input rs) = Ok (input rs')
         ∧ rs' ≡ₚ rs
         ∧ StronglySorted by_generation_desc rs'.
Proof.
  destruct (sort_frame ["Actual Generation (GWh)"] true (w 0%nat)
              ("Date", Datetime Millis, λ r, cell VDatetime (date r))
              (tail input_cols)
              [("Actual Generation (GWh)", Float64,
                λ r, cell VFloat (generation r))] rs eq_refl)
    as (rs' & Hsort & Hrs & Hsorted).
  exists rs'. split_and!; [apply Hsort|done|].
  eapply StronglySorted_fmap_inv with (f := id); [|by rewrite list_fmap_id].
  intros x y. apply rows_le_generation_desc.
Qed.

End SortCell.

Section HourCell.
Context {FO : FloatOps}.

Lemma hour_range (r : Reading) (h : Z) : hour r = Some h → 0 ≤ h < 24.
Proof.
  unfold hour, hour_of_ticks. destruct (date r) as [t|]; [|done].
  intros [= <-]. by apply Z.mod_pos_bound.
Qed.

(** X10: the hour cell adds one column, [Hour], next to the columns that
    were there: the hour of day of the reading's timestamp, a number from 0
    to 23, and null where the timestamp is missing. *)
Theorem hour_cell_appends_hour_of_day (rs : list Reading) :
  hour_cell (input rs)
  = Ok (input rs ++ [mkSeries "Hour" Int8 ((λ r, cell VInt (hour r)) <$> rs)])
  ∧ ∀ r h, r ∈ rs → hour r = Some h → 0 ≤ h < 24.
Proof.
  split; [|intros r h _; apply hour_range].
  etrans; [apply with_hour|].
  unfold with_hour_cols, input. rewrite <-frame_of_snoc. do 4 f_equal.
  apply list_fmap_ext. intros _ r _. apply hour_of_cell.
Qed.

End HourCell.

Section Sums.
Context {K : Type} `{EqDecision K}.




End Sums.

Section Maximum.
Context {FO : FloatOps}.





End Maximum.

Section GroupCells.
Context {FO : FloatOps}.



End GroupCells.

Section HourSourceTable.
Context {FO : FloatOps}.


End HourSourceTable.

Section ShortInput.
Context {FO : FloatOps}.

Lemma rolling_24_short (ts : list float) :
  (length ts < 24)%nat → rolling_24 ts = replicate (length ts) VNull.
Proof.
  intros Hlen. unfold rolling_24.
  rewrite (list_fmap_ext _ (λ _, VNull) (seq 0 (length ts))).
  - generalize (length ts) 0%nat. clear.
    induction n as [|n IH]; intros i; cbn; [done|]. f_equal. apply IH.
  - intros _ i Hi%list_elem_of_lookup_2%elem_of_seq.
    rewrite decide_False; [done|lia].
Qed.

(** X13: on a spreadsheet with fewer than 24 different timestamps the
    rolling mean is null in every row: no row has a full window behind
    it. *)
Theorem rolling_cell_all_null_below_24 (w : Scheduler) (rs : list Reading) :
  (length (distinct (date <$> rs)) < 24)%nat →
  ∃ ds : list (option Z),
    rolling_cell w (input rs)
    = Ok [ mkSeries "Date" (Datetime Millis) (cell VDatetime <$> ds);
           mkSeries "Actual Generation (GWh)" Float64
             (replicate (length ds) VNull) ]
    ∧ ds ≡ₚ distinct (date <$> rs).
Proof.
  intros Hlen.
  destruct (rolling_cell_table w rs) as (ds & Hrun & Hds & _).
  exists ds. split; [|done]. rewrite Hrun. unfold rolled.
  rewrite rolling_24_short by (by rewrite length_fmap, Hds).
  by rewrite length_fmap.
Qed.

End ShortInput.

Section DeriveAgain.
Context {FO : FloatOps}.

Lemma derive_cell_sets (df : DataFrame) (g : Series) :
  get_column "Actual Generation (GWh)" df = Ok g →
  dtype g = Float64 →
  length (values g) = height df →
  derive_cell df
  = Ok (Frame.set_column
          (mkSeries "Generation_MWh" Float64 (times_1000 <$> values g)) df).
Proof.
  intros Hg Ht Hlen.
  unfold derive_cell, Frame.with_columns. cbn. rewrite Hg. cbn.
  rewrite Ht. cbn.
  rewrite to_series_Column by (cbn; by rewrite length_fmap). cbn.
  rewrite check_unique_NoDup by by_eval. cbn.
  unfold with_name; cbn. do 3 f_equal.
  apply list_fmap_ext. intros _ v _. apply mul_value_1000.
Qed.

Lemma columns_set_column (s : Series) (df : DataFrame) :
  name s ∈ columns df → columns (Frame.set_column s df) = columns df.
Proof.
  induction df as [|c df IH]; cbn; [by intros ?%elem_of_nil|].
  destruct (String.eqb_spec (name c) (name s)) as [Hn|Hn]; cbn.
  - by rewrite Hn.
  - rewrite elem_of_cons. intros [|Hin]; [done|]. f_equal. by apply IH.
Qed.

Lemma get_column_set_column (s : Series) (df : DataFrame) (n : string) :
  name s ∈ columns df →
  get_column n (Frame.set_column s df)
  = if String.eqb n (name s) then Ok s else get_column n df.
Proof.
  induction df as [|c df IH]; cbn; [by intros ?%elem_of_nil|].
  destruct (String.eqb_spec (name c) (name s)) as [Hn|Hn]; cbn.
  - intros _. rewrite Hn, (String.eqb_sym (name s) n).
    by destruct (String.eqb n (name s)).
  - rewrite elem_of_cons. intros [|Hin]; [done|].
    destruct (String.eqb_spec (name c) n) as [Hc|Hc].
    + subst n. by rewrite (proj2 (String.eqb_neq _ _)).
    + by apply IH.
Qed.

(** X5: on a frame that already has a column [Generation_MWh] the derive
    cell adds no column: it puts the new values in the place of the old
    column and leaves the names and every other column as they were. *)
Theorem derive_cell_overwrites_existing_column (df : DataFrame) (g : Series) :
  get_column "Actual Generation (GWh)" df = Ok g →
  dtype g = Float64 →
  length (values g) = height df →
  "Generation_MWh" ∈ columns df →
  ∃ r, derive_cell df = Ok r
       ∧ columns r = columns df
       ∧ get_column "Generation_MWh" r
         = Ok (mkSeries "Generation_MWh" Float64 (times_1000 <$> values g))
       ∧ ∀ n, n ≠ "Generation_MWh" → get_column n r = get_column n df.
Proof.
  intros Hg Ht Hlen Hin. eexists. split; [by apply derive_cell_sets|].
  split_and!.
  - by apply columns_set_column.
  - by rewrite get_column_set_column.
  - intros n Hn. rewrite get_column_set_column by done. cbn.
    by rewrite (proj2 (String.eqb_neq _ _)).
Qed.

End DeriveAgain.

Section MissingColumns.
Context {FO : FloatOps}.


(** X15: the time-series cells need a [Date] column of timestamps: when
    the column holds text, the hour cell, both hourly chains and the export
    chain end in an error instead of a table. *)
Theorem time_series_cells_need_timestamps
    (w : Scheduler) (df : DataFrame) (d : Series) :
  get_column "Date" df = Ok d →
  dtype d = Utf8 →
  fails (hour_cell df)
  ∧ fails (generation_df w df)
  ∧ fails (generation_by_hour_source_df w df)
  ∧ fails (output_df w df).
Proof.
  intros Hd Ht. split_and!.
  - unfold hour_cell, Frame.with_columns. cbn. rewrite Hd. cbn. by rewrite Ht.
  - unfold generation_df, Frame.with_columns. cbn. rewrite Hd. cbn.
    by rewrite Ht.
  - unfold generation_by_hour_source_df, Frame.with_columns. cbn.
    rewrite Hd. cbn. by rewrite Ht.
  - unfold output_df, Frame.with_columns. cbn. rewrite Hd. cbn. by rewrite Ht.
Qed.

End MissingColumns.

(** * The run on a spreadsheet of the expected columns *)

Section Steps.
Context {FO : FloatOps}.

Ltac nb_open :=
  unfold setup_cell, load_cell, inspect_cell, show_cell, assign_cell,
    line_cell, area_cell, export_to, read_excel, inspect, transform, plot,
    need_column, write, var, call, alloc, assign, log, raise, ret,
    mbind, mret, NB_bind, NB_ret, bindNB, from_option.

Lemma inspect_cell_run (what : Inspection) (k : Kernel) (df0 : DataFrame) :
  loaded df0 k →
  inspect_cell what k
  = (Ok (), mkKernel (heap k) (vars k) (disk k)
              (trace k ++ [Inspected what df0])).
Proof. intros [Hvar Hobj]. nb_open. by rewrite Hvar, Hobj. Qed.

Lemma line_cell_run (k : Kernel) (g : DataFrame) :
  bound "generation_df" g k →
  "Hour" ∈ columns g → "Hourly Generation" ∈ columns g →
  line_cell k
  = (Ok (), mkKernel (heap k) (vars k) (disk k)
              (trace k ++ [Charted Line g "Hour" "Hourly Generation" None])).
Proof.
  intros (ref & Hvar & Hobj) Hx Hy. nb_open. rewrite Hvar, Hobj.
  by rewrite !decide_True by done.
Qed.

Lemma area_cell_run (k : Kernel) (g : DataFrame) :
  bound "generation_by_hour_source_df" g k →
  "Hour" ∈ columns g → "Hourly Generation" ∈ columns g →
  "Primary Source" ∈ columns g →
  area_cell k
  = (Ok (), mkKernel (heap k) (vars k) (disk k)
              (trace k ++ [Charted Area g "Hour" "Hourly Generation"
                             (Some "Primary Source")])).
Proof.
  intros (ref & Hvar & Hobj) Hx Hy Hc. nb_open. rewrite Hvar, Hobj.
  by rewrite !decide_True by done.
Qed.

Lemma loaded_grown (df0 : DataFrame) (k : Kernel) (ts : list DataFrame)
    (d : gmap string (Format * DataFrame)) (tr : list Event) :
  loaded df0 k → loaded df0 (mkKernel (heap k ++ ts) (vars k) d tr).
Proof. intros [Hvar Hobj]. split; [done|]. by apply lookup_app_l_Some. Qed.

(** A row of inspection cells, and a row of cells that show a table. *)
Lemma run_inspect_cells (whats : list Inspection) (k : Kernel)
    (df0 : DataFrame) :
  loaded df0 k →
  run_cells (inspect_cell <$> whats) k
  = (Ok (), mkKernel (heap k) (vars k) (disk k)
              (trace k ++ ((λ what, Inspected what df0) <$> whats))).
Proof.
  revert k. induction whats as [|what whats IH]; intros k Hk.
  - cbn. unfold ret. rewrite (right_id_L [] (++)). by destruct k.
  - rewrite fmap_cons, run_cells_cons, (inspect_cell_run _ _ _ Hk).
    rewrite IH by (destruct Hk; by split). cbn.
    by rewrite <-(assoc_L (++)).
Qed.

Lemma run_show_cells (chains : list (DataFrame → Result DataFrame))
    (ts : list DataFrame) (k : Kernel) (df0 : DataFrame) :
  loaded df0 k →
  Forall2 (λ chain t, chain df0 = Ok t) chains ts →
  run_cells (show_cell <$> chains) k
  = (Ok (), mkKernel (heap k ++ ts) (vars k) (disk k)
              (trace k ++ (Transformed <$> ts))).
Proof.
  intros Hk Hts. revert k Hk.
  induction Hts as [|chain t chains ts Ht _ IH]; intros k Hk.
  - cbn. unfold ret. rewrite !(right_id_L [] (++)). by destruct k.
  - rewrite fmap_cons, run_cells_cons, (show_cell_run _ _ _ Hk), Ht.
    rewrite IH by (by apply (loaded_grown df0 k [t])). cbn.
    by rewrite <-!(assoc_L (++)).
Qed.

Lemma run_cells_app_Ok (cells1 cells2 : list (NB unit)) (k k' : Kernel) :
  run_cells cells1 k = (Ok (), k') →
  run_cells (cells1 ++ cells2) k = run_cells cells2 k'.
Proof. intros H. by rewrite run_cells_app, H. Qed.

Lemma run_cells_cons_Ok (c : NB unit) (cells : list (NB unit))
    (k k' : Kernel) :
  c k = (Ok (), k') → run_cells (c :: cells) k = run_cells cells k'.
Proof. intros H. by rewrite run_cells_cons, H. Qed.

End Steps.

Section ExpectedRun.
Context {FO : FloatOps}.

Lemma charted_app (tr1 tr2 : list Event) :
  charted (tr1 ++ tr2) = charted tr1 ++ charted tr2.
Proof. apply omap_app. Qed.

Lemma charted_Transformed (ts : list DataFrame) :
  charted (Transformed <$> ts) = [].
Proof. induction ts as [|t ts IH]; [done|]. by rewrite fmap_cons. Qed.

Lemma charted_Inspected (whats : list Inspection) (df : DataFrame) :
  charted ((λ what, Inspected what df) <$> whats) = [].
Proof. induction whats as [|t ts IH]; [done|]. by rewrite fmap_cons. Qed.

(** The nine cells that show a table of [df] all have one to show. *)
Lemma shown_tables (w : Scheduler) (rs : list Reading) :
  ∃ ts, Forall2 (λ chain t, chain (input rs) = Ok t)
          [select_cell; rename_cell; derive_cell; filter_source_cell;
           filter_generation_cell; sort_cell w; group_stats_cell w;
           group_max_cell w; hour_cell] ts.
Proof.
  destruct (sort_cell_rows w rs) as (rs' & Hsort & _).
  destruct (group_stats_cell_rows w rs) as (ss & Hstats & _).
  destruct (group_max_cell_rows w rs) as (ss' & Hmax & _).
  eexists [_; _; _; _; _; _; _; _; _]. repeat (apply Forall2_cons; split); cbv beta.
  - apply select_cell_columns; try done; cbn; by rewrite !length_fmap.
  - rewrite rename_cell_unfold by by_eval.
    apply check_unique_NoDup. rewrite columns_renamed. by_eval.
  - apply (derive_cell_fresh _
             (mkSeries "Actual Generation (GWh)" Float64
                ((λ r, cell VFloat (generation r)) <$> rs))); try done.
    + cbn. by rewrite !length_fmap.
    + by_eval.
  - apply filter_source_cell_rows.
  - apply filter_generation_cell_rows.
  - exact Hsort.
  - exact Hstats.
  - exact Hmax.
  - apply with_hour.
  - constructor.
Qed.

Ltac solve_loaded :=
  split;
  [ cbn [vars]; rewrite ?lookup_insert_ne by done;
    first [apply lookup_insert_eq | apply lookup_singleton_eq | done]
  | cbn [heap]; first [done | by repeat apply lookup_app_l_Some] ].

Ltac solve_bound :=
  eexists; split;
  [ cbn [vars]; rewrite ?lookup_insert_ne by done; apply lookup_insert_eq
  | cbn [heap];
    first [ by apply list_lookup_middle
          | apply lookup_app_l_Some; by apply list_lookup_middle ] ].

(** The first nineteen cells: everything up to the second chart. *)
Lemma run_to_charts (w : World) (rs : list Reading) :
  excel w data_path = Ok (input rs) →
  ∃ k hs ks,
    generation_df (sched w) (input rs) = Ok (hourly rs hs)
    ∧ generation_by_hour_source_df (sched w) (input rs)
      = Ok (by_hour_source rs ks)
    ∧ run_cells (take 19 (notebook w)) fresh_kernel = (Ok (), k)
    ∧ loaded (input rs) k
    ∧ disk k = ∅
    ∧ charted (trace k)
      = [ (Line, hourly rs hs, "Hour", "Hourly Generation", None);
          (Area, by_hour_source rs ks, "Hour", "Hourly Generation",
           Some "Primary Source") ].
Proof.
  intros Hx.
  destruct (shown_tables (sched w) rs) as (ts & Hts).
  destruct (generation_df_table (sched w) rs) as (hs & Hg & _).
  destruct (generation_by_hour_source_df_table (sched w) rs) as (ks & Hb & _).
  eexists _, hs, ks. split_and!; [exact Hg|exact Hb|..].
  - change (take 19 (notebook w))
      with ([setup_cell; load_cell w]
            ++ (inspect_cell <$> [Describe; DTypes; Columns; Schema])
            ++ (show_cell <$>
                  [select_cell; rename_cell; derive_cell; filter_source_cell;
                   filter_generation_cell; sort_cell (sched w);
                   group_stats_cell (sched w); group_max_cell (sched w);
                   hour_cell])
            ++ [assign_cell "generation_df" (generation_df (sched w));
                line_cell;
                assign_cell "generation_by_hour_source_df"
                  (generation_by_hour_source_df (sched w));
                area_cell]).
    etrans; [apply run_cells_app_Ok, (load_cell_loads w _ Hx)|].
    etrans; [apply run_cells_app_Ok, (run_inspect_cells _ _ (input rs));
             solve_loaded|].
    etrans; [apply run_cells_app_Ok, (run_show_cells _ ts _ (input rs));
             [solve_loaded|exact Hts]|].
    cbn [heap vars disk trace].
    etrans; [apply run_cells_cons_Ok;
             rewrite (assign_cell_run _ _ _ (input rs)) by solve_loaded;
             by rewrite Hg|].
    cbn [heap vars disk trace].
    etrans; [apply run_cells_cons_Ok, (line_cell_run _ (hourly rs hs));
             [solve_bound|by_eval..]|].
    cbn [heap vars disk trace].
    etrans; [apply run_cells_cons_Ok;
             rewrite (assign_cell_run _ _ _ (input rs)) by solve_loaded;
             by rewrite Hb|].
    cbn [heap vars disk trace].
    etrans; [apply run_cells_cons_Ok,
               (area_cell_run _ (by_hour_source rs ks));
             [solve_bound|by_eval..]|].
    cbn [heap vars disk trace].
    reflexivity.
  - solve_loaded.
  - done.
  - cbn [trace]. rewrite !charted_app, charted_Transformed, charted_Inspected.
    done.
Qed.

End ExpectedRun.

Section ExpectedRunEnd.
Context {FO : FloatOps}.

Ltac solve_loaded :=
  split;
  [ cbn [vars]; rewrite ?lookup_insert_ne by done;
    first [apply lookup_insert_eq | apply lookup_singleton_eq | done]
  | cbn [heap]; first [done | by repeat apply lookup_app_l_Some] ].

(** The first twenty-two cells: everything before the export. *)
Lemma run_to_export (w : World) (rs : list Reading) :
  excel w data_path = Ok (input rs) →
  NoDup ("Date" :: (source_name <$> distinct (source <$> rs))) →
  ∃ k table,
    output_df (sched w) (input rs) = Ok table
    ∧ run_cells (take 22 (notebook w)) fresh_kernel = (Ok (), k)
    ∧ bound "output_df" table k
    ∧ disk k = ∅
    ∧ length (charted (trace k)) = 2%nat.
Proof.
  intros Hx Hnames.
  destruct (run_to_charts w rs Hx) as (k & hs & ks & _ & _ & Hrun & Hk & Hd & Hc).
  destruct (rolling_cell_table (sched w) rs) as (ds & Hroll & _).
  destruct (output_df_table (sched w) rs) as (ks' & Hout & _).
  eexists _, _. split_and!; [exact Hout|..].
  - change (take 22 (notebook w))
      with (take 19 (notebook w)
            ++ (show_cell <$> [pivot_cell; rolling_cell (sched w)])
            ++ [assign_cell "output_df" (output_df (sched w))]).
    etrans; [apply run_cells_app_Ok, Hrun|].
    etrans; [apply run_cells_app_Ok,
               (run_show_cells _
                  [pivoted rs (distinct (date <$> rs))
                     (distinct (source <$> rs));
                   rolled rs ds] _ (input rs) Hk);
             repeat (apply Forall2_cons; split); cbv beta;
             [by apply pivot_cell_table|exact Hroll|constructor]|].
    etrans; [apply run_cells_cons_Ok;
             rewrite (assign_cell_run _ _ _ (input rs))
               by (by apply loaded_grown);
             by rewrite Hout|].
    reflexivity.
  - eexists. split; [apply lookup_insert_eq|]. cbn [heap].
    by apply list_lookup_middle.
  - exact Hd.
  - cbn [trace]. rewrite !charted_app, charted_Transformed, Hc. done.
Qed.




End ExpectedRunEnd.

Section RunEdges.
Context {FO : FloatOps}.

Ltac nb_open :=
  unfold setup_cell, load_cell, inspect_cell, show_cell, assign_cell,
    line_cell, area_cell, export_to, read_excel, inspect, transform, plot,
    need_column, write, var, call, alloc, assign, log, raise, ret,
    mbind, mret, NB_bind, NB_ret, bindNB, from_option.

Ltac nb_same_disk := nb_open; repeat case_match; by simplify_eq/=.

Lemma setup_cell_keeps_disk : keeps_disk setup_cell.
Proof. intros k. nb_same_disk. Qed.
Lemma load_cell_keeps_disk (w : World) : keeps_disk (load_cell w).
Proof. intros k. nb_same_disk. Qed.
Lemma inspect_cell_keeps_disk (what : Inspection) :
  keeps_disk (inspect_cell what).
Proof. intros k. nb_same_disk. Qed.
Lemma show_cell_keeps_disk (chain : DataFrame → Result DataFrame) :
  keeps_disk (show_cell chain).
Proof. intros k. nb_same_disk. Qed.
Lemma assign_cell_keeps_disk (x : string)
    (chain : DataFrame → Result DataFrame) :
  keeps_disk (assign_cell x chain).
Proof. intros k. nb_same_disk. Qed.
Lemma line_cell_keeps_disk : keeps_disk line_cell.
Proof. intros k. nb_same_disk. Qed.
Lemma area_cell_keeps_disk : keeps_disk area_cell.
Proof. intros k. nb_same_disk. Qed.

Lemma run_cells_keeps_disk (cells : list (NB unit)) :
  Forall keeps_disk cells → keeps_disk (run_cells cells).
Proof.
  induction 1 as [|c cells Hc _ IH]; intros k; [done|].
  rewrite run_cells_cons. specialize (Hc k).
  destruct (c k) as [[[]|e] k']; [|done]. cbn in Hc. by rewrite IH.
Qed.

Lemma before_export_keeps_disk (w : World) :
  Forall keeps_disk (take 22 (notebook w)).
Proof.
  cbn [take notebook].
  repeat apply Forall_cons_2; try apply Forall_nil;
    auto using setup_cell_keeps_disk, load_cell_keeps_disk,
      inspect_cell_keeps_disk, show_cell_keeps_disk,
      assign_cell_keeps_disk, line_cell_keeps_disk, area_cell_keeps_disk.
Qed.

Lemma run_stops_at_first_error (cells1 cells2 : list (NB unit))
    (k : Kernel) (e : Error) :
  (run_cells cells1 k).1 = Err e →
  run_cells (cells1 ++ cells2) k = run_cells cells1 k.
Proof.
  intros He. rewrite run_cells_app.
  by destruct (run_cells cells1 k) as [[[]|e'] k'].
Qed.

(** X20: no cell before the last one writes a file, on any spreadsheet and
    however the cells end; so a run that fails before the export ends in
    the error of the failing cell with nothing written. *)
Theorem nothing_is_written_before_the_export (w : World) :
  (∀ n, (n ≤ 22)%nat → disk (kernel_after w n) = ∅)
  ∧ (∀ e, (run_cells (take 22 (notebook w)) fresh_kernel).1 = Err e →
          (run w).1 = Err e ∧ disk (run w).2 = ∅).
Proof.
  split.
  - intros n Hn. unfold kernel_after.
    replace n with (n `min` 22)%nat by lia. rewrite <-take_take.
    apply (run_cells_keeps_disk _
             (Forall_take _ _ _ (before_export_keeps_disk w)) fresh_kernel).
  - intros e He. unfold run.
    change (notebook w) with (take 22 (notebook w) ++ [export_cell w]).
    rewrite (run_stops_at_first_error _ _ _ _ He). split; [done|].
    apply (run_cells_keeps_disk _ (before_export_keeps_disk w) fresh_kernel).
Qed.



End RunEdges.

Section PartialExport.
Context {FO : FloatOps}.

(** The export cell from a kernel where [output_df] is bound: it stops at
    the first write that fails, with the files written before it. *)
Lemma export_cell_stops (w : World) (k : Kernel) (t : DataFrame) :
  bound "output_df" t k →
  (∀ e, write_fault w Csv "output.csv" = Some e →
        (export_cell w k).1 = Err e ∧ disk (export_cell w k).2 = disk k)
  ∧ (∀ e, write_fault w Csv "output.csv" = None →
          write_fault w Xlsx "output.xlsx" = Some e →
          (export_cell w k).1 = Err e
          ∧ disk (export_cell w k).2
            = <["output.csv" := (Csv, t)]> (disk k))
  ∧ (∀ e, write_fault w Csv "output.csv" = None →
          write_fault w Xlsx "output.xlsx" = None →
          write_fault w Parquet "output.parquet" = Some e →
          (export_cell w k).1 = Err e
          ∧ disk (export_cell w k).2
            = <["output.xlsx" := (Xlsx, t)]>
                (<["output.csv" := (Csv, t)]> (disk k))).
Proof.
  intros (ref & Hvar & Hobj).
  unfold export_cell, mbind, NB_bind, bindNB.
  rewrite (export_to_run w Csv "output.csv" k ref t Hvar Hobj).
  split_and!.
  - by intros e ->.
  - intros e -> Hx.
    rewrite (export_to_run w Xlsx "output.xlsx"
               (mkKernel (heap k) (vars k) _ _) ref t Hvar Hobj).
    by rewrite Hx.
  - intros e -> Hx Hp.
    rewrite (export_to_run w Xlsx "output.xlsx"
               (mkKernel (heap k) (vars k) _ _) ref t Hvar Hobj).
    rewrite Hx.
    rewrite (export_to_run w Parquet "output.parquet"
               (mkKernel (heap k) (vars k) _ _) ref t Hvar Hobj).
    by rewrite Hp.
Qed.

Lemma run_ends_as_export (w : World) (k : Kernel) :
  run_cells (take 22 (notebook w)) fresh_kernel = (Ok (), k) →
  run w = export_cell w k.
Proof.
  intros Hrun. unfold run.
  change (notebook w) with (take 22 (notebook w) ++ [export_cell w]).
  rewrite (run_cells_app_Ok _ _ _ _ Hrun), run_cells_cons.
  by destruct (export_cell w k) as [[[]|e] k'].
Qed.

(** X21: the three writes are not all or nothing.  On a spreadsheet that
    gets the run to the export, a failing csv write leaves no file, a
    failing spreadsheet write leaves [output.csv] alone, and a failing
    parquet write leaves [output.csv] and [output.xlsx]; each time the run
    ends in the error of the write that failed, and the files written hold
    the table of [output_df]. *)
Theorem export_stops_at_the_first_failing_write
    (w : World) (rs : list Reading) :
  excel w data_path = Ok (input rs) →
  NoDup ("Date" :: (source_name <$> distinct (source <$> rs))) →
  ∃ table,
    output_df (sched w) (input rs) = Ok table
    ∧ (∀ e, write_fault w Csv "output.csv" = Some e →
            (run w).1 = Err e ∧ disk (run w).2 = ∅)
    ∧ (∀ e, write_fault w Csv "output.csv" = None →
            write_fault w Xlsx "output.xlsx" = Some e →
            (run w).1 = Err e
            ∧ disk (run w).2 = <["output.csv" := (Csv, table)]> ∅)
    ∧ (∀ e, write_fault w Csv "output.csv" = None →
            write_fault w Xlsx "output.xlsx" = None →
            write_fault w Parquet "output.parquet" = Some e →
            (run w).1 = Err e
            ∧ disk (run w).2
              = <["output.xlsx" := (Xlsx, table)]>
                  (<["output.csv" := (Csv, table)]> ∅)).
Proof.
  intros Hx Hnames.
  destruct (run_to_export w rs Hx Hnames) as (k & t & Hout & Hrun & Ht & Hd & _).
  exists t. split; [exact Hout|].
  rewrite (run_ends_as_export w k Hrun), <-Hd.
  destruct (export_cell_stops w k t Ht) as (Hcsv & Hxlsx & Hpq).
  split_and!; [exact Hcsv|exact Hxlsx|exact Hpq].
Qed.

End PartialExport.

(** * The columns of the tables, on any spreadsheet *)

Section ColumnsOfResults.
Context {FO : FloatOps}.

Lemma bind_Ok_inv {A B} (m : Result A) (f : A → Result B) (b : B) :
  bind m f = Ok b → ∃ a, m = Ok a ∧ f a = Ok b.
Proof. destruct m as [a|e]; [by exists a|done]. Qed.

Lemma check_unique_Ok (df r : DataFrame) : check_unique df = Ok r → r = df.
Proof. unfold check_unique. by destruct (first_duplicate _); intros [=]. Qed.

Lemma traverse_Ok_inv {A B} (f : A → Result B) (l : list A) (r : list B) :
  traverse f l = Ok r → Forall2 (λ x y, f x = Ok y) l r.
Proof.
  revert r. induction l as [|x l IH]; intros r; cbn.
  - intros [= <-]. constructor.
  - intros (y & Hy & (ys & Hys & [= <-])%bind_Ok_inv)%bind_Ok_inv.
    constructor; [done|by apply IH].
Qed.

Lemma columns_of_rows (like : DataFrame) (rows : list (list value)) :
  columns (of_rows like rows) = columns like.
Proof.
  unfold of_rows. revert rows.
  induction like as [|s like IH]; intros rows; [done|].
  cbn. f_equal. apply IH.
Qed.

Lemma columns_sort (by_ : list string) (d : bool) (sh : Shuffle)
    (df r : DataFrame) :
  Frame.sort by_ d sh df = Ok r → columns r = columns df.
Proof.
  unfold Frame.sort. intros (kcols & _ & [= <-])%bind_Ok_inv.
  apply columns_of_rows.
Qed.

Lemma columns_unique (sh : Shuffle) (df r : DataFrame) :
  Frame.unique sh df = Ok r → columns r = columns df.
Proof. intros [= <-]. apply columns_of_rows. Qed.

Lemma columns_got (keys : list string) (df kcols : DataFrame) :
  traverse (λ n, get_column n df) keys = Ok kcols → columns kcols = keys.
Proof.
  intros H%traverse_Ok_inv.
  induction H as [|n s keys kcols Hs _ IH]; [done|].
  cbn. f_equal; [by apply get_column_name in Hs as [? _]|done].
Qed.

Lemma eval_named (df : DataFrame) (e : Expr) (n : string) (r : Evaluated) :
  named e n → eval df e = Ok r → ev_name r = n.
Proof.
  intros [m|e' m]; cbn.
  - intros (s & Hs & [= <-])%bind_Ok_inv. cbn.
    by apply get_column_name in Hs as [? _].
  - intros (r' & _ & [= <-])%bind_Ok_inv. by destruct r'.
Qed.

Lemma columns_group_by_agg (keys : list string) (exprs : list Expr)
    (names : list string) (sh : Shuffle) (df r : DataFrame) :
  Forall2 named exprs names →
  Frame.group_by_agg keys exprs sh df = Ok r →
  columns r = keys ++ names.
Proof.
  intros Hnamed. unfold Frame.group_by_agg.
  intros (kcols & Hk & (aggs & Haggs & ->%check_unique_Ok)%bind_Ok_inv)
           %bind_Ok_inv.
  unfold columns. rewrite fmap_app. fold (columns (of_rows kcols
    (shuffle sh (distinct (rows_of (height df) (values <$> kcols)))))).
  rewrite columns_of_rows, (columns_got _ _ _ Hk). f_equal.
  apply traverse_Ok_inv in Haggs. clear Hk.
  revert names Hnamed.
  induction Haggs as [|e s exprs aggs Hs _ IH]; intros names Hnamed.
  - by apply Forall2_nil_inv_l in Hnamed as ->.
  - apply Forall2_cons_inv_l in Hnamed as (n & names' & Hn & Hnames & ->).
    cbn. f_equal; [|by apply IH].
    unfold Frame.agg_column in Hs.
    apply bind_Ok_inv in Hs as (whole & Hwhole & Hs).
    apply bind_Ok_inv in Hs as (vs & _ & [= <-]). cbn.
    by apply (eval_named df e).
Qed.

Lemma columns_select (exprs : list Expr) (names : list string)
    (df r : DataFrame) :
  Forall2 named exprs names →
  Frame.select exprs df = Ok r →
  columns r = names.
Proof.
  intros Hnamed. unfold Frame.select.
  intros (rs & Hrs & (cols & Hcols & ->%check_unique_Ok)%bind_Ok_inv)
           %bind_Ok_inv.
  apply traverse_Ok_inv in Hrs. apply traverse_Ok_inv in Hcols.
  revert names Hnamed cols Hcols. generalize (Frame.selection_height rs).
  induction Hrs as [|e x exprs rs Hx _ IH]; intros h names Hnamed cols Hcols.
  - apply Forall2_nil_inv_l in Hnamed as ->.
    by apply Forall2_nil_inv_l in Hcols as ->.
  - apply Forall2_cons_inv_l in Hnamed as (n & names' & Hn & Hnames & ->).
    apply Forall2_cons_inv_l in Hcols as (s & cols' & Hs & Hcols & ->).
    cbn. f_equal; [|by apply (IH h)].
    rewrite <-(eval_named df e n x Hn Hx).
    unfold Frame.to_series in Hs. destruct x as [m t v|s']; cbn in *.
    + by injection Hs as <-.
    + by case_decide; simplify_eq.
Qed.

Lemma generation_df_columns (w : Scheduler) (df g : DataFrame) :
  generation_df w df = Ok g → columns g = ["Hour"; "Hourly Generation"].
Proof.
  unfold generation_df.
  intros (d2 & (d1 & _ & Hgroup)%bind_Ok_inv & Hsort)%bind_Ok_inv.
  rewrite (columns_sort _ _ _ _ _ Hsort).
  eapply (columns_group_by_agg ["Hour"] _ ["Hourly Generation"]);
    [|exact Hgroup].
  repeat constructor.
Qed.

Lemma generation_by_hour_source_df_columns (w : Scheduler)
    (df g : DataFrame) :
  generation_by_hour_source_df w df = Ok g →
  columns g = ["Hour"; "Primary Source"; "Hourly Generation"].
Proof.
  unfold generation_by_hour_source_df.
  intros (d4 & (d3 & (d2 & _ & Hsel)%bind_Ok_inv & Huniq)%bind_Ok_inv
          & Hsort)%bind_Ok_inv.
  rewrite (columns_sort _ _ _ _ _ Hsort), (columns_unique _ _ _ Huniq).
  eapply columns_select; [|exact Hsel]. repeat constructor.
Qed.

Lemma output_df_columns (w : Scheduler) (df t : DataFrame) :
  output_df w df = Ok t → columns t = ["date"; "generation_gwh"; "source"].
Proof.
  unfold output_df.
  intros (d3 & (d2 & _ & Hsel)%bind_Ok_inv & Hsort)%bind_Ok_inv.
  rewrite (columns_sort _ _ _ _ _ Hsort).
  eapply columns_select; [|exact Hsel]. repeat constructor.
Qed.

Ltac nb_open :=
  unfold setup_cell, load_cell, inspect_cell, show_cell, assign_cell,
    line_cell, area_cell, export_to, read_excel, inspect, transform, plot,
    need_column, write, var, call, alloc, assign, log, raise, ret,
    mbind, mret, NB_bind, NB_ret, bindNB, from_option.

(** X16: whatever the spreadsheet holds, a table that one of the three
    named chains has built has the columns its consumer asks for: the
    hourly table [Hour] and [Hourly Generation], the table per hour and
    source also [Primary Source], the exported table [date],
    [generation_gwh] and [source], and no other.  So a chart cell whose
    table is bound draws its chart; it fails only when run before the cell
    that builds its table, with Python's error for the unbound name. *)
Theorem chains_build_the_columns_their_consumers_name
    (w : Scheduler) (df : DataFrame) :
  (∀ g, generation_df w df = Ok g →
        columns g = ["Hour"; "Hourly Generation"]
        ∧ ∀ k, bound "generation_df" g k → (line_cell k).1 = Ok ())
  ∧ (∀ g, generation_by_hour_source_df w df = Ok g →
          columns g = ["Hour"; "Primary Source"; "Hourly Generation"]
          ∧ ∀ k, bound "generation_by_hour_source_df" g k →
                 (area_cell k).1 = Ok ())
  ∧ (∀ t, output_df w df = Ok t →
          columns t = ["date"; "generation_gwh"; "source"])
  ∧ (∀ k, vars k !! "generation_df" = None →
          (line_cell k).1 = Err (NameError "generation_df"))
  ∧ (∀ k, vars k !! "generation_by_hour_source_df" = None →
          (area_cell k).1 = Err (NameError "generation_by_hour_source_df")).
Proof.
  split_and!.
  - intros g Hg%generation_df_columns. split; [done|].
    intros k Hk. rewrite (line_cell_run k g Hk); [done|rewrite Hg; by_eval..].
  - intros g Hg%generation_by_hour_source_df_columns. split; [done|].
    intros k Hk. rewrite (area_cell_run k g Hk); [done|rewrite Hg; by_eval..].
  - apply output_df_columns.
  - intros k Hk. nb_open. by rewrite Hk.
  - intros k Hk. nb_open. by rewrite Hk.
Qed.

End ColumnsOfResults.

Section Bounds.
Context {FO : FloatOps}.

Lemma hour_among_all (r : Reading) : hour r ∈ all_hours.
Proof.
  unfold all_hours. destruct (hour r) as [h|] eqn:Hh; [|by left].
  right. apply list_elem_of_fmap. exists h. split; [done|].
  apply elem_of_seqZ. apply hour_range in Hh. lia.
Qed.

(** X12: however many readings the spreadsheet has, the hourly table has
    at most 25 rows, one per hour of day and one for the readings without a
    timestamp, and the table per hour and source at most 25 for each
    source. *)
Theorem hourly_tables_are_small (w : Scheduler) (rs : list Reading) :
  ∃ g b,
    generation_df w (input rs) = Ok g
    ∧ generation_by_hour_source_df w (input rs) = Ok b
    ∧ (height g ≤ 25)%nat
    ∧ (height b ≤ 25 * length (distinct (source <$> rs)))%nat.
Proof.
  destruct (generation_df_table w rs) as (hs & Hg & Hhs & _).
  destruct (generation_by_hour_source_df_table w rs) as (ks & Hb & Hks & _).
  exists (hourly rs hs), (by_hour_source rs ks). split_and!; [done..| |].
  - change 25%nat with (length all_hours).
    change (height (hourly rs hs)) with (length (cell VInt <$> hs)).
    rewrite length_fmap.
    apply submseteq_length, NoDup_submseteq.
    + rewrite Hhs. apply NoDup_distinct.
    + intros h. rewrite Hhs, elem_of_distinct.
      intros (r & -> & _)%list_elem_of_fmap. apply hour_among_all.
  - change 25%nat with (length all_hours).
    change (height (by_hour_source rs ks))
      with (length ((λ k : option Z * option string, cell VInt k.1) <$> ks)).
    rewrite length_fmap.
    rewrite <-List.length_prod.
    apply submseteq_length, NoDup_submseteq.
    + rewrite Hks. apply NoDup_distinct.
    + intros [h s]. rewrite Hks, elem_of_distinct.
      intros (r & [= -> ->] & Hr)%list_elem_of_fmap.
      apply list_elem_of_In, List.in_prod_iff. split; apply list_elem_of_In.
      * apply hour_among_all.
      * apply elem_of_distinct, list_elem_of_fmap. by exists r.
Qed.

End Bounds.

Section Inspections.
Context {FO : FloatOps}.



End Inspections.

(** * The variables of the notebook *)

Section Bindings.
Context {FO : FloatOps}.

Ltac nb_open :=
  unfold setup_cell, load_cell, inspect_cell, show_cell, assign_cell,
    line_cell, area_cell, export_to, read_excel, inspect, transform, plot,
    need_column, write, var, call, alloc, assign, log, raise, ret,
    mbind, mret, NB_bind, NB_ret, bindNB, from_option.
















End Bindings.

(** * The theorems on a small spreadsheet

    The run of the notebook on [sample], and on worlds where the reader, a
    method chain or a write fails. *)





(** A missing spreadsheet, a spreadsheet without the generation column and
    a spreadsheet that cannot be written: each run ends in the error of the
    call that failed. *)
Lemma errors_reach_the_caller_unchanged_witness :
  run missing
  = (Err (FileNotFoundError data_path),
     mkKernel [] ∅ ∅ [Raised (FileNotFoundError data_path)])
  ∧ (run truncated).1 = Err (ColumnNotFoundError "Actual Generation (GWh)")
  ∧ (run read_only).1 = Err (IOError "output.xlsx").
Proof.
  split_and!.
  - apply (errors_reach_the_caller_unchanged missing). reflexivity.
  - destruct (run_cells (take 6 (notebook truncated)) fresh_kernel)
      as [r k] eqn:Hrun.
    assert (r = Ok ()) as ->.
    { change r with (r, k).1. rewrite <-Hrun. vm_compute. reflexivity. }
    destruct (errors_reach_the_caller_unchanged truncated) as (_ & _ & H & _).
    rewrite (H dates_only 6%nat (show_cell select_cell) select_cell k
               (ColumnNotFoundError "Actual Generation (GWh)"));
      [reflexivity..| |exact Hrun|vm_compute; reflexivity].
    by left.
  - destruct (run_cells (take 22 (notebook read_only)) fresh_kernel)
      as [r k] eqn:Hrun.
    assert (r = Ok ()) as ->.
    { change r with (r, k).1. rewrite <-Hrun. vm_compute. reflexivity. }
    destruct (errors_reach_the_caller_unchanged read_only) as (_ & _ & _ & H).
    rewrite (H k Hrun). reflexivity.
Defined.

(** Two runs of the per-hour-and-source chain on [sample]: at hour 0 the
    one puts Thermal before Hydro, the other Hydro before Thermal; both are
    sorted by hour. *)
Lemma two_runs_two_row_orders :
  generation_by_hour_source_df (λ _, keep_order) (input sample)
  = Ok (by_hour_source sample
          [(Some 0, Some "Thermal"); (Some 0, Some "Hydro");
           (Some 1, Some "Thermal")])
  ∧ generation_by_hour_source_df restless (input sample)
    = Ok (by_hour_source sample
            [(Some 0, Some "Hydro"); (Some 0, Some "Thermal");
             (Some 1, Some "Thermal")])
  ∧ generation_by_hour_source_df (λ _, keep_order) (input sample)
    ≠ generation_by_hour_source_df restless (input sample).
Proof.
  split_and!; [vm_compute; reflexivity..|].
  intros H. vm_compute in H. discriminate H.
Qed.



(** The derived column of [sample]. *)
Lemma derive_cell_appends_column_witness :
  derive_cell (input sample)
  = Ok (input sample
        ++ [mkSeries "Generation_MWh" Float64
              (times_1000 <$> [@VFloat QFloat 1%Q; @VFloat QFloat 2%Q;
                               @VFloat QFloat 3%Q])]).
Proof.
  apply (proj2 derive_cell_appends_column (input sample)
           (mkSeries "Actual Generation (GWh)" Float64
              [@VFloat QFloat 1%Q; @VFloat QFloat 2%Q; @VFloat QFloat 3%Q])).
  - vm_compute. reflexivity.
  - vm_compute. reflexivity.
  - vm_compute. reflexivity.
  - apply (bool_decide_unpack _). vm_compute. reflexivity.
Defined.

(** * The other cells on a small spreadsheet *)

(** The selection drops the extra column of [with_megawatts]. *)
Lemma select_cell_keeps_the_three_columns_witness :
  select_cell with_megawatts = Ok (input sample).
Proof.
  apply (proj2 select_cell_keeps_the_three_columns with_megawatts);
    vm_compute; reflexivity.
Defined.

(** The renaming of [sample]. *)
Lemma rename_cell_changes_names_only_witness :
  rename_cell (input sample)
  = Ok ((λ s, mkSeries (new_name (name s)) (dtype s) (values s))
          <$> input sample).
Proof.
  apply (rename_cell_changes_names_only (input sample));
    apply (bool_decide_unpack _); vm_compute; reflexivity.
Defined.

(** A spreadsheet with dates only cannot be renamed. *)
Lemma rename_cell_errors_witness :
  rename_cell dates_only
  = Err (ColumnNotFoundError "Actual Generation (GWh)").
Proof.
  apply (proj1 (rename_cell_errors dates_only)).
  apply (bool_decide_unpack _). vm_compute. reflexivity.
Defined.




(** When the spreadsheet cannot be written, [output.csv] is the one file left. *)
Lemma export_stops_at_the_first_failing_write_witness :
  excel read_only data_path = Ok (input sample)
  ∧ NoDup ("Date" :: (source_name <$> distinct (source <$> sample)))
  ∧ write_fault read_only Xlsx "output.xlsx" = Some (IOError "output.xlsx")
  ∧ (run read_only).1 = Err (IOError "output.xlsx")
  ∧ dom (disk (run read_only).2) = {["output.csv"]}.
Proof.
  assert (excel read_only data_path = Ok (input sample)) as Hx
    by (vm_compute; reflexivity).
  assert (NoDup ("Date" :: (source_name <$> distinct (source <$> sample))))
    as Hnames by (apply (bool_decide_unpack _); vm_compute; reflexivity).
  split; [exact Hx|]. split; [exact Hnames|]. split; [reflexivity|].
  destruct (export_stops_at_the_first_failing_write read_only sample
              Hx Hnames) as (t & _ & _ & Hxlsx & _).
  destruct (Hxlsx (IOError "output.xlsx") eq_refl eq_refl) as [-> ->].
  split; [done|]. by rewrite dom_insert_L, dom_empty_L, (right_id_L ∅ (∪)).
Defined.

(** [sample] has two timestamps: every rolling mean is null. *)
Lemma rolling_cell_all_null_below_24_witness :
  (length (distinct (date <$> sample)) < 24)%nat
  ∧ ∃ ds : list (option Z),
      rolling_cell (λ _, keep_order) (input sample)
      = Ok [ mkSeries "Date" (Datetime Millis) (cell VDatetime <$> ds);
             mkSeries "Actual Generation (GWh)" Float64
               (replicate (length ds) VNull) ].
Proof.
  assert (length (distinct (date <$> sample)) < 24)%nat as Hlen
    by (vm_compute; lia).
  split; [exact Hlen|].
  destruct (rolling_cell_all_null_below_24 (λ _, keep_order) sample Hlen)
    as (ds & Hrun & _).
  by exists ds.
Defined.

(** Deriving the column of [with_megawatts] again keeps its four columns. *)
Lemma derive_cell_overwrites_existing_column_witness :
  ∃ r, derive_cell with_megawatts = Ok r
       ∧ columns r = columns with_megawatts.
Proof.
  destruct (derive_cell_overwrites_existing_column with_megawatts
              (mkSeries "Actual Generation (GWh)" Float64
                 [@VFloat QFloat 1%Q; @VFloat QFloat 2%Q; @VFloat QFloat 3%Q]))
    as (r & Hrun & Hcols & _).
  - vm_compute. reflexivity.
  - reflexivity.
  - vm_compute. reflexivity.
  - apply (bool_decide_unpack _). vm_compute. reflexivity.
  - by exists r.
Defined.


(** With dates read as text, the hour cell and the export chain fail. *)
Lemma time_series_cells_need_timestamps_witness :
  fails (hour_cell text_dates)
  ∧ fails (output_df (λ _, keep_order) text_dates).
Proof.
  destruct (time_series_cells_need_timestamps (λ _, keep_order) text_dates
              (mkSeries "Date" Utf8 [VStr "2024-01-01 00:00"]))
    as (Hhour & _ & _ & Hout); [reflexivity..|].
  by split.
Defined.

(** The columns of the table exported from [sample]. *)
Lemma chains_build_the_columns_their_consumers_name_witness :
  ∃ t, output_df (λ _, keep_order) (input sample) = Ok t
       ∧ columns t = ["date"; "generation_gwh"; "source"].
Proof.
  destruct (output_df (λ _, keep_order) (input sample)) as [t|e] eqn:Hout.
  - exists t. split; [done|].
    by apply (chains_build_the_columns_their_consumers_name
                (λ _, keep_order) (input sample)).
  - exfalso. vm_compute in Hout. discriminate Hout.
Defined.

(** The run on a spreadsheet with dates only fails and writes nothing. *)
Lemma nothing_is_written_before_the_export_witness :
  (run truncated).1 = Err (ColumnNotFoundError "Actual Generation (GWh)")
  ∧ disk (run truncated).2 = ∅.
Proof.
  apply (proj2 (nothing_is_written_before_the_export truncated)).
  vm_compute. reflexivity.
Defined.



